(** * The people picker pane (src/widgets/peoplePicker.js)

    A shallow embedding of the group discovery / creation / editing
    workflow of the pane, and the properties of it that the specification
    states.

    JavaScript strings are modelled as [string] (sequences of 8-bit code
    units); promises by their settled state; the shared graph store [kb],
    the mount element and the calls made to collaborators are threaded
    through a small state monad. *)

From Stdlib Require Import String Ascii List Bool Arith Lia.
Import ListNotations.
Open Scope list_scope.
Open Scope string_scope.

(* ================================================================= *)
(** * Strings *)

(** [s.slice(0, n)] *)
Definition slice0 (n : nat) (s : string) : string := substring 0 n s.

Definition quot : ascii := ascii_of_nat 34.
Definition LF : ascii := ascii_of_nat 10.
Definition CR : ascii := ascii_of_nat 13.

(** The [escape-html] package: the five characters it rewrites. *)
Definition escape_char (c : ascii) : string :=
  if Ascii.eqb c quot then "&quot;"
  else if Ascii.eqb c "&" then "&amp;"
  else if Ascii.eqb c "'" then "&#39;"
  else if Ascii.eqb c "<" then "&lt;"
  else if Ascii.eqb c ">" then "&gt;"
  else String c "".

Fixpoint escape (s : string) : string :=
  match s with
  | "" => ""
  | String c s' => escape_char c ++ escape s'
  end.

(* ================================================================= *)
(** * Regular expressions, as far as [findGroupIndex] uses them *)

Module RegExp.

Inductive regex : Type :=
| Eps                          (* the empty pattern *)
| Chr (c : ascii)              (* a literal character *)
| Dot                          (* [.]: anything but a line terminator *)
| Seq (r1 r2 : regex)
| Opt (r : regex)              (* greedy [r?] *)
| Star (r : regex)             (* greedy [r*] *)
| Eos.                         (* [$], no multiline flag *)

(** The line terminators among 8-bit code units. *)
Definition lineTerminator (c : ascii) : bool :=
  Ascii.eqb c LF || Ascii.eqb c CR.

Fixpoint Lit (s : string) : regex :=
  match s with
  | "" => Eps
  | String c s' => Seq (Chr c) (Lit s')
  end.

(** Greedy iteration of [body]: one more round first, the continuation
    [k] only when that fails.  A round that consumes nothing is rejected,
    so the length of the input is fuel enough. *)
Fixpoint iterate (body : string -> (string -> option string) -> option string)
  (k : string -> option string) (fuel : nat) (s : string) : option string :=
  match fuel with
  | O => k s
  | S fuel' =>
      match body s (fun s' =>
               if Nat.ltb (String.length s') (String.length s)
               then iterate body k fuel' s' else None) with
      | Some rest => Some rest
      | None => k s
      end
  end.

(** Backtracking matcher in continuation-passing style: [exec r s k]
    matches [r] at the head of [s] and hands the rest of the input to
    [k]; alternatives are tried in the priority order of ECMAScript
    (greedy first). *)
Fixpoint exec (r : regex) (s : string) (k : string -> option string)
  {struct r} : option string :=
  match r with
  | Eps => k s
  | Chr c =>
      match s with
      | String a s' => if Ascii.eqb a c then k s' else None
      | "" => None
      end
  | Dot =>
      match s with
      | String a s' => if lineTerminator a then None else k s'
      | "" => None
      end
  | Seq r1 r2 => exec r1 s (fun s' => exec r2 s' k)
  | Opt r1 =>
      match exec r1 s k with
      | Some rest => Some rest
      | None => k s
      end
  | Star r1 => iterate (exec r1) k (String.length s) s
  | Eos =>
      match s with
      | "" => k s
      | String _ _ => None
      end
  end.

(** [s.replace(re, by)] for a regular expression without the [g] flag:
    the leftmost match is replaced, every start index from 0 to the
    length of [s] being tried in turn. *)
Fixpoint replace (re : regex) (by_ : string) (s : string) : string :=
  match exec re s Some with
  | Some rest => by_ ++ rest
  | None =>
      match s with
      | "" => ""
      | String c s' => String c (replace re by_ s')
      end
  end.

End RegExp.

(* ================================================================= *)
(** * RDF terms and statements *)

(** Nodes of the graph; a literal is its lexical value (the pane only
    makes plain literals). *)
Inductive term : Type :=
| NamedNode (value : string)
| BlankNode (id : string)
| Literal (value : string).

(** [node.value] *)
Definition value (t : term) : string :=
  match t with
  | NamedNode v => v
  | BlankNode i => i
  | Literal v => v
  end.

(** [node.toString()] *)
Definition toString (t : term) : string :=
  match t with
  | NamedNode v => "<" ++ v ++ ">"
  | BlankNode i => "_:" ++ i
  | Literal v => v
  end.

(** [a.equals(b)] *)
Definition equals (a b : term) : bool :=
  match a, b with
  | NamedNode x, NamedNode y => String.eqb x y
  | BlankNode x, BlankNode y => String.eqb x y
  | Literal x, Literal y => String.eqb x y
  | _, _ => false
  end.

Record statement : Type := st {
  subject : term;
  predicate : term;
  object : term;
  why : term          (* the graph (document) the statement belongs to *)
}.

Definition statement_eqb (a b : statement) : bool :=
  equals (subject a) (subject b) && equals (predicate a) (predicate b)
  && equals (object a) (object b) && equals (why a) (why b).

(** Modelled from the spec: the namespace registry of [../ns], which is not
    among the sources; the well-known vocabularies under their usual IRIs. *)
Module ns.
Definition rdf (n : string) : term :=
  NamedNode ("http://www.w3.org/1999/02/22-rdf-syntax-ns#" ++ n).
Definition foaf (n : string) : term :=
  NamedNode ("http://xmlns.com/foaf/0.1/" ++ n).
Definition vcard (n : string) : term :=
  NamedNode ("http://www.w3.org/2006/vcard/ns#" ++ n).
Definition solid (n : string) : term :=
  NamedNode ("http://www.w3.org/ns/solid/terms#" ++ n).
End ns.

(* ================================================================= *)
(** * The graph store *)

(** Modelled from the spec: the store object of [../store], which is not
    among the sources (section 6: pattern match over subject, predicate,
    object and graph with any position a wildcard; add and remove of single
    statements; fetch-if-needed-then-notify).  Statements are kept in the
    order they were added.  Whether [add] drops a statement the store
    already holds differs between releases of the underlying library, so it
    is a flag of the store and every result below holds for both settings. *)
Record formula : Type := {
  statements : list statement;
  fetched : list string;           (* documents the fetcher has loaded *)
  dropsDuplicates : bool
}.

Definition with_statements (f : formula) (l : list statement) : formula :=
  {| statements := l; fetched := fetched f;
     dropsDuplicates := dropsDuplicates f |}.

(** Modelled from the spec: the operations of that store the pane calls
    ([statementsMatching], [match], [any], [add], [remove]), with the
    pattern, first-match and not-found behaviour section 6 and section 4.4
    describe. *)
Module kb.

(** A missing ([undefined] or [null]) position of a pattern is a wildcard. *)
Definition fits (pat : option term) (t : term) : bool :=
  match pat with
  | None => true
  | Some x => equals x t
  end.

Definition matches (s p o g : option term) (x : statement) : bool :=
  fits s (subject x) && fits p (predicate x)
  && fits o (object x) && fits g (why x).

Definition statementsMatching (f : formula) (s p o g : option term)
  : list statement :=
  filter (matches s p o g) (statements f).

(** [kb.match(s, p, o, g)] *)
Definition match_ := statementsMatching.

(** [kb.any(s, p)]: the object of the first statement that fits. *)
Definition any (f : formula) (s p : option term) : option term :=
  match statementsMatching f s p None None with
  | [] => None
  | x :: _ => Some (object x)
  end.

Definition holds (f : formula) (x : statement) : bool :=
  existsb (statement_eqb x) (statements f).

(** [kb.add(s, p, o, g)] *)
Definition add (f : formula) (x : statement) : formula :=
  if dropsDuplicates f && holds f x then f
  else with_statements f (statements f ++ [x])%list.

(** [kb.add([x1, ..., xn])] *)
Definition addAll (f : formula) (l : list statement) : formula :=
  fold_left add l f.

Fixpoint removeStatement (x : statement) (l : list statement)
  : option (list statement) :=
  match l with
  | [] => None
  | y :: l' =>
      if statement_eqb x y then Some l'
      else option_map (cons y) (removeStatement x l')
  end.

(** [kb.remove(st)]: takes out the first statement equal to [st];
    [None] stands for the exception raised when there is none. *)
Definition remove (f : formula) (x : statement) : option formula :=
  option_map (with_statements f) (removeStatement x (statements f)).

End kb.

(** The document part of a URI: what precedes the first [#]. *)
Fixpoint docpart (uri : string) : string :=
  match uri with
  | "" => ""
  | String c rest => if Ascii.eqb c "#" then "" else String c (docpart rest)
  end.

(* ================================================================= *)
(** * Errors, promises, the page and the outside world *)

Inductive error : Type :=
| Error (message : string)             (* [new Error(message)] *)
| FetchError (uri : string)            (* what the fetcher reports *)
| XhrError (responseURL : string)      (* a failed request: [err.xhr.responseURL] *)
| TypeError (message : string).

(** A promise is settled once; later calls of [resolve] or [reject] are
    without effect. *)
Inductive promise (A : Type) : Type :=
| Pending
| Resolved (v : A)
| Rejected (e : error).
Arguments Pending {A}.
Arguments Resolved {A} v.
Arguments Rejected {A} e.

Definition resolve {A} (p : promise A) (v : A) : promise A :=
  match p with Pending => Resolved v | _ => p end.

Definition reject {A} (p : promise A) (e : error) : promise A :=
  match p with Pending => Rejected e | _ => p end.

(** What the group builder puts into its drop container ... *)
Inductive item : Type :=
| label (text : string) (inputValue : string)
| personDiv (imgSrc : string) (name : string) (webIdNode : term)
| paragraph (text : string)
| button (text : string).

(** ... and what can sit directly under a mount element. *)
Inductive widget : Type :=
| errorMessageBlock (message : string)
| dropContainer (children : list item).

(** Calls that leave the component. *)
Inductive call : Type :=
| nowOrWhenFetched (uri : string)
| patch (uri : string) (toDel toIns : list statement)
| groupChangedCb (err : option error) (changeType : option string)
                 (agent : option term)
| uncaught (e : error).

Record world : Type := {
  store : formula;                                       (* [kb] *)
  web : string -> option (list (term * term * term));    (* the documents out there *)
  element : list widget;                                 (* children of [this.element] *)
  calls : list call                                      (* oldest first *)
}.

Definition M (A : Type) : Type := world -> A * world.

Definition ret {A} (a : A) : M A := fun w => (a, w).
Definition bind {A B} (m : M A) (k : A -> M B) : M B :=
  fun w => let (a, w') := m w in k a w'.

Notation "x <- m ;; k" := (bind m (fun x => k))
  (at level 61, m at next level, right associativity).
Notation "m ;;; k" := (bind m (fun _ => k))
  (at level 61, right associativity).

Definition getStore : M formula := fun w => (store w, w).
Definition putStore (f : formula) : M unit := fun w =>
  (tt, {| store := f; web := web w; element := element w; calls := calls w |}).
Definition emit (c : call) : M unit := fun w =>
  (tt, {| store := store w; web := web w; element := element w;
          calls := (calls w ++ [c])%list |}).
(** [this.element.appendChild(x)] *)
Definition appendChild (x : widget) : M unit := fun w =>
  (tt, {| store := store w; web := web w; element := (element w ++ [x])%list;
          calls := calls w |}).
(** [this.element.innerHTML = ''] *)
Definition clearElement : M unit := fun w =>
  (tt, {| store := store w; web := web w; element := [];
          calls := calls w |}).

(** Modelled from the spec: [kb.fetcher.nowOrWhenFetched(uri, cb)] of the
    store of [../store] (fetch-if-needed-then-notify): the document is
    loaded unless it was before, its statements tagged with the document as
    their graph; the result is what [cb] receives ([None] for [ok]). *)
Definition fetch (uri : string) : M (option error) :=
  emit (nowOrWhenFetched uri) ;;;
  f <- getStore ;;
  let doc := docpart uri in
  if existsb (String.eqb doc) (fetched f) then ret None
  else
    response <- (fun w => (web w doc, w)) ;;
    match response with
    | None => ret (Some (FetchError doc))
    | Some triples =>
        let loaded :=
          kb.addAll f (map (fun t => match t with
                                     | (s, p, o) => st s p o (NamedNode doc)
                                     end) triples) in
        putStore {| statements := statements loaded;
                    fetched := doc :: fetched f;
                    dropsDuplicates := dropsDuplicates f |} ;;;
        ret None
    end.

(** [getWithDefault(subject, predicate, defaultValue)] *)
Definition getWithDefault (f : formula) (subject predicate : term)
  (defaultValue : string) : string :=
  match kb.any f (Some subject) (Some predicate) with
  | Some object => value object
  | None => defaultValue
  end.

(* ================================================================= *)
(** * PeoplePicker *)

Module PeoplePicker.

Record groupIndex : Type := {
  bookBaseUrl : string;
  groupIndexUrl : string;
  groupContainerUrl : string
}.

(** The regular expression literal of the source: [book\.ttl], then
    optionally [#] and any run of [.], then [$]. *)
Definition bookTtl : RegExp.regex :=
  RegExp.Seq (RegExp.Lit "book.ttl")
    (RegExp.Seq
       (RegExp.Opt (RegExp.Seq (RegExp.Chr "#") (RegExp.Star RegExp.Dot)))
       RegExp.Eos).

Definition findGroupIndex (typeIndexUrl : string) : M (promise groupIndex) :=
  err <- fetch typeIndexUrl ;;
  match err with
  | Some e => ret (reject Pending e)
  | None =>
      f <- getStore ;;
      let bookRegistrations :=
        kb.statementsMatching f None (Some (ns.solid "forClass"))
          (Some (ns.vcard "AddressBook")) None in
      match bookRegistrations with
      | [] =>
          ret (reject Pending
                 (Error "no address book registered in the solid type index"))
      | registration :: _ =>
          let registrationSubject := subject registration in
          let instance :=
            kb.statementsMatching f (Some registrationSubject)
              (Some (ns.solid "instance")) None None in
          (* no [return] after this [reject] in the source *)
          let pr : promise groupIndex :=
            if Nat.eqb (List.length instance) 0
            then reject Pending (Error "incomplete address book registration")
            else Pending in
          match instance with
          | [] =>
              (* [instance[0].object] raises inside the fetcher's callback *)
              emit (uncaught
                      (TypeError "Cannot read property 'object' of undefined")) ;;;
              ret pr
          | instance0 :: _ =>
              let bookUrl := value (object instance0) in
              let bookBaseUrl := RegExp.replace bookTtl "" bookUrl in
              let groupIndexUrl := bookBaseUrl ++ "groups.ttl" in
              let groupContainerUrl := bookBaseUrl ++ "Group/" in
              ret (resolve pr
                     {| bookBaseUrl := bookBaseUrl;
                        groupIndexUrl := groupIndexUrl;
                        groupContainerUrl := groupContainerUrl |})
          end
      end
  end.

Record created : Type := {
  groupNode : term;
  groupGraphNode : term
}.

Definition isResolved {A} (pr : promise A) : bool :=
  match pr with Resolved _ => true | _ => false end.

Fixpoint update {A} (i : nat) (a : A) (l : list A) : list A :=
  match l, i with
  | [], _ => []
  | _ :: l', O => a :: l'
  | x :: l', S i' => x :: update i' a l'
  end.

(** The response to the [i]-th PATCH arrives: its promise settles (on
    success after the statements are mirrored into [kb]), and
    [Promise.all] follows: rejected by the first rejection it sees,
    resolved once every promise is.  A refused PATCH is reported by the web
    client with the URL of the resource it was sent to. *)
Definition deliver (patchFails : string -> bool)
  (jobs : list (term * list statement)) (i : nat)
  (state : list (promise unit) * promise unit)
  : M (list (promise unit) * promise unit) :=
  let (patchPromises, all) := state in
  match nth_error jobs i, nth_error patchPromises i with
  | Some (namedGraph, toIns), Some Pending =>
      if patchFails (value namedGraph) then
        let err := XhrError (value namedGraph) in
        ret (update i (Rejected err) patchPromises, reject all err)
      else
        f <- getStore ;;
        putStore (kb.addAll f toIns) ;;;
        let patchPromises' := update i (Resolved tt) patchPromises in
        ret (patchPromises',
             if forallb isResolved patchPromises' then resolve all tt
             else all)
  | _, _ => ret state
  end.

Fixpoint deliverAll (patchFails : string -> bool)
  (jobs : list (term * list statement)) (arrival : list nat)
  (state : list (promise unit) * promise unit)
  : M (list (promise unit) * promise unit) :=
  match arrival with
  | [] => ret state
  | i :: later =>
      state' <- deliver patchFails jobs i state ;;
      deliverAll patchFails jobs later state'
  end.

Fixpoint forEach {A} (l : list A) (body : A -> M unit) : M unit :=
  match l with
  | [] => ret tt
  | x :: l' => body x ;;; forEach l' body
  end.

(** [err.xhr.responseURL] *)
Definition responseURL (err : error) : option string :=
  match err with
  | XhrError u => Some u
  | _ => None
  end.

(** [createNewGroup(bookBaseUrl)].  The environment supplies the string
    [uuid.v4()] returns, which PATCH requests the server refuses, and
    the order in which its responses arrive (indices into the array of
    the two requests; a request whose index never comes stays
    unanswered). *)
Definition createNewGroup (uuid_v4 : string) (patchFails : string -> bool)
  (arrival : list nat) (bookBaseUrl : string) : M (promise created) :=
  let groupIndexNode := NamedNode (bookBaseUrl ++ "groups.ttl") in
  let graphUrl := bookBaseUrl ++ "Group/" ++ slice0 8 uuid_v4 ++ ".ttl" in
  let groupGraphNode := NamedNode graphUrl in
  let groupNode := NamedNode (graphUrl ++ "#this") in
  let jobs :=
    map (fun namedGraph =>
           let typeStatement :=
             st groupNode (ns.rdf "type") (ns.vcard "Group") namedGraph in
           let nameStatement :=
             st groupNode (ns.vcard "fn") (Literal "Untitled Group")
                namedGraph in
           (namedGraph, [typeStatement; nameStatement]))
        [groupGraphNode; groupIndexNode] in
  (* mapping the array sends every request before any response is seen *)
  forEach jobs (fun job => emit (patch (value (fst job)) [] (snd job))) ;;;
  state <- deliverAll patchFails jobs arrival
             (map (fun _ => Pending) jobs, Pending) ;;
  ret (match snd state with
       | Pending => Pending
       | Resolved _ =>
           Resolved {| groupNode := groupNode;
                       groupGraphNode := groupGraphNode |}
       | Rejected err =>
           match responseURL err with
           | Some u =>
               Rejected (Error ("Couldn't create new group.  PATCH failed for ("
                                  ++ u ++ ")"))
           | None =>
               Rejected (TypeError
                           "Cannot read property 'responseURL' of undefined")
           end
       end).

End PeoplePicker.

(* ================================================================= *)
(** * GroupPicker *)

Module GroupPicker.

Definition loadGroups (bookBaseUrl groupIndexUrl : string)
  : M (promise (list term)) :=
  err <- fetch groupIndexUrl ;;
  match err with
  | Some e => ret (reject Pending e)
  | None =>
      f <- getStore ;;
      let groupNodes :=
        map object
          (kb.match_ f (Some (NamedNode (bookBaseUrl ++ "book.ttl#this")))
             (Some (ns.vcard "includesGroup")) None None) in
      ret (resolve Pending groupNodes)
  end.

End GroupPicker.

(* ================================================================= *)
(** * Person and GroupBuilder *)

Module Person.

(** The row [render] builds; [iconBase] is the constant of [../iconBase]. *)
Definition render (iconBase : string) (f : formula) (webIdNode : term)
  : item :=
  let imgSrc :=
    getWithDefault f webIdNode (ns.foaf "img") (iconBase ++ "noun_15059.svg") in
  let name :=
    getWithDefault f webIdNode (ns.foaf "name")
      ("[" ++ toString webIdNode ++ "]") in
  personDiv (escape imgSrc) (escape name) webIdNode.

End Person.

Module GroupBuilder.

Record t : Type := {
  groupGraph : term;
  groupNode : term;
  givenGroupChangedCb : bool      (* was a [groupChangedCb] passed in *)
}.

Definition onGroupChanged (this : t) (err : option error)
  (changeType : option string) (agent : option term) : M unit :=
  if givenGroupChangedCb this
  then emit (groupChangedCb err changeType agent)
  else ret tt.

(** The text of the template literal that [escape] is the tag of, line
    breaks and indentation included. *)
Definition copy : string :=
  String LF "        To add someone to this group, drag and drop their WebID URL onto the box."
  ++ String LF "      ".

Definition render (iconBase : string) (this : t) : M unit :=
  f <- getStore ;;
  let groupNameInput :=
    getWithDefault f (groupNode this) (ns.vcard "fn") "Untitled Group" in
  let groupNameLabel := label (escape "Group Name:") groupNameInput in
  let rows :=
    match kb.any f (Some (groupNode this)) (Some (ns.vcard "hasMember")) with
    | Some _ =>
        map (fun statement => Person.render iconBase f (object statement))
          (kb.match_ f (Some (groupNode this))
             (Some (ns.vcard "hasMember")) None None)
    | None => [paragraph (escape copy)]
    end in
  let doneBuildingButton := button (escape "Done") in
  clearElement ;;;
  appendChild (dropContainer (groupNameLabel :: rows ++ [doneBuildingButton])%list).

(** [!rdfClass || !rdfClass.equals(ns.foaf('Person'))] *)
Definition notPerson (rdfClass : option term) : bool :=
  match rdfClass with
  | None => true
  | Some c => negb (equals c (ns.foaf "Person"))
  end.

Definition membership (this : t) (webIdNode : term) : statement :=
  st (groupNode this) (ns.vcard "hasMember") webIdNode (groupGraph this).

Definition add (iconBase : string) (this : t) (webId : string)
  : M (promise term) :=
  err <- fetch webId ;;
  match err with
  | Some e =>
      onGroupChanged this (Some e) None None ;;;
      ret (reject Pending e)
  | None =>
      let webIdNode := NamedNode webId in
      f <- getStore ;;
      let rdfClass := kb.any f (Some webIdNode) (Some (ns.rdf "type")) in
      (* no [return] after this [reject] in the source *)
      let pr : promise term :=
        if notPerson rdfClass
        then reject Pending (Error "Only people supported right now")
        else Pending in
      let statement := membership this webIdNode in
      (if Nat.ltb
            (List.length
               (kb.match_ f (Some (subject statement))
                  (Some (predicate statement)) (Some (object statement))
                  (Some (why statement)))) 1
       then putStore (kb.add f statement)
       else ret tt) ;;;
      onGroupChanged this None (Some "added") (Some webIdNode) ;;;
      let pr := resolve pr webIdNode in
      render iconBase this ;;;
      ret pr
  end.

(** The click handler [handleRemove(webIdNode)] returns. *)
Definition handleRemove (iconBase : string) (this : t) (webIdNode : term)
  : M bool :=
  f <- getStore ;;
  match kb.remove f (membership this webIdNode) with
  | Some f' =>
      putStore f' ;;;
      onGroupChanged this None (Some "removed") (Some webIdNode)
  | None =>
      (* [catch (err)] *)
      let name := kb.any f (Some webIdNode) (Some (ns.foaf "name")) in
      appendChild
        (match name with
         | Some n =>
             if Nat.ltb 0 (String.length (value n))
             then errorMessageBlock (escape ("Could not remove " ++ value n))
             else errorMessageBlock
                    (escape ("Could not remove " ++ value webIdNode))
         | None =>
             errorMessageBlock
               (escape ("Could not remove " ++ value webIdNode))
         end)
  end ;;;
  render iconBase this ;;;
  ret true.

(** The body of the [forEach] of [setGroupName], over the statements
    [kb.match] returned; an exception of [kb.remove] ends the loop and
    is the result. *)
Fixpoint rename (this : t) (name : string) (found : list statement)
  : M (option error) :=
  match found with
  | [] => ret None
  | x :: later =>
      f <- getStore ;;
      match kb.remove f x with
      | None => ret (Some (Error "Statement to be removed is not on store"))
      | Some f' =>
          putStore
            (kb.add f' (st (groupNode this) (ns.vcard "fn") (Literal name)
                          (why x))) ;;;
          rename this name later
      end
  end.

Definition setGroupName (this : t) (name : string) : M (option error) :=
  f <- getStore ;;
  rename this name
    (kb.match_ f (Some (groupNode this)) (Some (ns.vcard "fn")) None None).

(** The callback [render] hands to [makeDropTarget], for one dropped URI:
    [this.add(uri).catch(...)].  The handler of [catch] runs once the
    callback of the fetch, in which the promise was settled, is through. *)
Definition dropped (iconBase : string) (this : t) (uri : string) : M unit :=
  pr <- add iconBase this uri ;;
  match pr with
  | Rejected _ =>
      appendChild
        (errorMessageBlock (escape "Could not load the given WebId"))
  | _ => ret tt
  end.

End GroupBuilder.

(* ================================================================= *)
(** * Notions the statements below are written with *)

(** No [#] occurs in [s]: [s] is (part of) a URL without its fragment. *)
Fixpoint noHash (s : string) : bool :=
  match s with
  | "" => true
  | String c s' => negb (Ascii.eqb c "#") && noHash s'
  end.

(** No line terminator occurs in [s], as in every URL. *)
Fixpoint noLineTerminator (s : string) : bool :=
  match s with
  | "" => true
  | String c s' => negb (RegExp.lineTerminator c) && noLineTerminator s'
  end.

(** [stripPrefix l s] is what follows [l] in [s], if [s] starts with [l]. *)
Fixpoint stripPrefix (l s : string) : option string :=
  match l, s with
  | "", _ => Some s
  | String _ _, "" => None
  | String a l', String b s' =>
      if Ascii.eqb b a then stripPrefix l' s' else None
  end.

(** How many statements equal to [x] the store holds. *)
Definition occurrences (x : statement) (f : formula) : nat :=
  List.length (filter (statement_eqb x) (statements f)).

(** [x] is a name statement of [node]. *)
Definition isNameOf (node : term) (x : statement) : bool :=
  equals node (subject x) && equals (ns.vcard "fn") (predicate x).

(** [x] is any other statement. *)
Definition notNameOf (node : term) (x : statement) : bool :=
  negb (isNameOf node x).

(** The name statement [setGroupName] puts in the place of [y]. *)
Definition replacement (node : term) (name : string) (y : statement)
  : statement :=
  st node (ns.vcard "fn") (Literal name) (why y).

(** [x] lists a group of the address book whose root node is [root]. *)
Definition isGroupEntry (root : term) (x : statement) : bool :=
  equals root (subject x) && equals (ns.vcard "includesGroup") (predicate x).

(** The state a patch promise of [createNewGroup] can be in, given what the
    server does with a PATCH of [namedGraph]. *)
Definition patchState (patchFails : string -> bool) (namedGraph : term)
  (pr : promise unit) : Prop :=
  pr = Pending
  \/ (pr = Resolved tt /\ patchFails (value namedGraph) = false)
  \/ (pr = Rejected (XhrError (value namedGraph))
      /\ patchFails (value namedGraph) = true).

(** How the state of [Promise.all] goes with the states of its two
    promises. *)
Definition allState (p0 p1 : promise unit) (all : promise unit) : Prop :=
  match all with
  | Pending =>
      (forall e, p0 <> Rejected e) /\ (forall e, p1 <> Rejected e)
      /\ ~ (p0 = Resolved tt /\ p1 = Resolved tt)
  | Resolved _ => p0 = Resolved tt /\ p1 = Resolved tt
  | Rejected e => p0 = Rejected e \/ p1 = Rejected e
  end.

(** An error block sits directly under the mount element. *)
Definition showsError (children : list widget) : bool :=
  existsb (fun x => match x with
                    | errorMessageBlock _ => true
                    | dropContainer _ => false
                    end) children.

(* ================================================================= *)
(** * Properties *)

(** ** Equality tests and the store *)

Lemma equals_eq (a b : term) : equals a b = true <-> a = b.
Proof.
  destruct a, b; simpl; rewrite ?String.eqb_eq;
    split; intro H; try congruence; try discriminate.
Qed.

Lemma equals_refl (a : term) : equals a a = true.
Proof. now apply equals_eq. Qed.

Lemma statement_eqb_eq (a b : statement) : statement_eqb a b = true <-> a = b.
Proof.
  unfold statement_eqb. rewrite !andb_true_iff, !equals_eq.
  destruct a, b; simpl. split.
  - intros [[[-> ->] ->] ->]. reflexivity.
  - intros H. injection H as -> -> -> ->. auto.
Qed.

Lemma statement_eqb_refl (a : statement) : statement_eqb a a = true.
Proof. now apply statement_eqb_eq. Qed.

Lemma matches_exact (x y : statement) :
  kb.matches (Some (subject x)) (Some (predicate x)) (Some (object x))
    (Some (why x)) y = statement_eqb x y.
Proof. reflexivity. Qed.

Lemma holds_In (f : formula) (x : statement) :
  kb.holds f x = true <-> In x (statements f).
Proof.
  unfold kb.holds. rewrite existsb_exists. split.
  - intros [y [Hy E]]. apply statement_eqb_eq in E. now subst.
  - intros H. exists x. split; [assumption | apply statement_eqb_refl].
Qed.

Lemma add_In (f : formula) (x : statement) : In x (statements (kb.add f x)).
Proof.
  unfold kb.add.
  destruct (dropsDuplicates f && kb.holds f x) eqn:E.
  - apply andb_true_iff in E. now apply holds_In.
  - simpl. apply in_or_app. right. now left.
Qed.

Lemma add_fetched (f : formula) (x : statement) :
  fetched (kb.add f x) = fetched f.
Proof. unfold kb.add. now destruct (dropsDuplicates f && kb.holds f x). Qed.

(** ** createNewGroup *)

Section CreateNewGroup.

Variable patchFails : string -> bool.
Variable jobs : list (term * list statement).

Lemma deliver_frame i state w :
  let w' := snd (PeoplePicker.deliver patchFails jobs i state w) in
  calls w' = calls w /\ element w' = element w /\ web w' = web w.
Proof.
  unfold PeoplePicker.deliver. destruct state as [ps all].
  destruct (nth_error jobs i) as [[g ins]|]; [|simpl; auto].
  destruct (nth_error ps i) as [[| |]|]; simpl; auto.
  destruct (patchFails (value g)); simpl; auto.
Qed.

Lemma deliverAll_cons i later state w :
  PeoplePicker.deliverAll patchFails jobs (i :: later) state w
  = let (state', w') := PeoplePicker.deliver patchFails jobs i state w in
    PeoplePicker.deliverAll patchFails jobs later state' w'.
Proof. reflexivity. Qed.

Lemma deliverAll_frame arrival : forall state w,
  let w' := snd (PeoplePicker.deliverAll patchFails jobs arrival state w) in
  calls w' = calls w /\ element w' = element w /\ web w' = web w.
Proof.
  induction arrival as [|i later IH]; intros state w; [simpl; auto|].
  rewrite deliverAll_cons.
  pose proof (deliver_frame i state w) as F.
  destruct (PeoplePicker.deliver patchFails jobs i state w) as [state' w1].
  simpl in F. destruct F as (F1 & F2 & F3).
  specialize (IH state' w1). simpl in IH. destruct IH as (G1 & G2 & G3).
  repeat split; congruence.
Qed.

(** Once [Promise.all] is rejected, nothing that arrives later changes
    its state. *)
Lemma deliver_rejected i ps e w :
  snd (fst (PeoplePicker.deliver patchFails jobs i (ps, Rejected e) w))
  = Rejected e.
Proof.
  unfold PeoplePicker.deliver.
  destruct (nth_error jobs i) as [[g ins]|]; [|reflexivity].
  destruct (nth_error ps i) as [[| |]|]; try reflexivity.
  destruct (patchFails (value g)); simpl; [reflexivity|].
  now destruct (forallb _ _).
Qed.

Lemma deliverAll_rejected arrival : forall ps e w,
  snd (fst (PeoplePicker.deliverAll patchFails jobs arrival
              (ps, Rejected e) w)) = Rejected e.
Proof.
  induction arrival as [|i later IH]; intros ps e w; [reflexivity|].
  rewrite deliverAll_cons.
  pose proof (deliver_rejected i ps e w) as R.
  destruct (PeoplePicker.deliver patchFails jobs i (ps, Rejected e) w)
    as [[ps' all'] w1].
  simpl in R. subst all'. apply IH.
Qed.

End CreateNewGroup.

Lemma slice0_prefix (n : nat) : forall s,
  exists rest, s = slice0 n s ++ rest.
Proof.
  unfold slice0. induction n as [|n IH]; intros [|c s]; simpl.
  - now exists "".
  - now exists (String c s).
  - now exists "".
  - destruct (IH s) as [rest E]. exists rest. now rewrite <- E.
Qed.

Lemma slice0_length (n : nat) : forall s,
  String.length (slice0 n s) = Nat.min n (String.length s).
Proof.
  unfold slice0. induction n as [|n IH]; intros [|c s]; simpl; auto.
Qed.

Lemma deliverAll_app patchFails jobs pre : forall post state w,
  PeoplePicker.deliverAll patchFails jobs (pre ++ post) state w
  = let (state', w') := PeoplePicker.deliverAll patchFails jobs pre state w in
    PeoplePicker.deliverAll patchFails jobs post state' w'.
Proof.
  induction pre as [|i pre IH]; intros post state w; [reflexivity|].
  rewrite <- app_comm_cons, !deliverAll_cons.
  destruct (PeoplePicker.deliver patchFails jobs i state w) as [s1 w1].
  apply IH.
Qed.

(** While the response of the first request is outstanding and no failure
    has arrived, [Promise.all] stays pending. *)
Lemma deliverAll_before_first patchFails j0 g1 ins1 pre : forall p1 w,
  ~ In 0 pre ->
  patchFails (value g1) = false \/ ~ In 1 pre ->
  exists p1' w',
    PeoplePicker.deliverAll patchFails [j0; (g1, ins1)] pre
      ([Pending; p1], Pending) w
    = (([Pending; p1'], Pending), w').
Proof.
  induction pre as [|i pre IH]; intros p1 w H0 H1.
  - now exists p1, w.
  - rewrite deliverAll_cons.
    assert (H0' : ~ In 0 pre) by (intro; apply H0; now right).
    assert (H1' : patchFails (value g1) = false \/ ~ In 1 pre)
      by (destruct H1 as [H1|H1]; [now left | right; intro; apply H1; now right]).
    destruct i as [|[|i]].
    + exfalso. apply H0. now left.
    + destruct H1 as [H1|H1]; [|exfalso; apply H1; now left].
      unfold PeoplePicker.deliver. cbn [nth_error].
      destruct p1; try (apply IH; assumption).
      rewrite H1. unfold bind, getStore, putStore, ret. simpl.
      apply IH; assumption.
    + unfold PeoplePicker.deliver. cbn [nth_error].
      replace (nth_error [] i) with (@None (term * list statement))
        by now destruct i.
      apply IH; assumption.
Qed.

(** Both requests leave while the array of target graphs is mapped:
    whatever the server answers, and in whatever order, the calls made are
    the PATCH of the group's own graph followed by the PATCH of the index. *)
Lemma createNewGroup_requests
  (uuid_v4 : string) (patchFails : string -> bool) (arrival : list nat)
  (base : string) (w : world) :
  let graphUrl := base ++ "Group/" ++ slice0 8 uuid_v4 ++ ".ttl" in
  let groupNode := NamedNode (graphUrl ++ "#this") in
  let initial := fun namedGraph =>
    [st groupNode (ns.rdf "type") (ns.vcard "Group") namedGraph;
     st groupNode (ns.vcard "fn") (Literal "Untitled Group") namedGraph] in
  let r := PeoplePicker.createNewGroup uuid_v4 patchFails arrival base w in
  calls (snd r)
  = (calls w
     ++ [patch graphUrl [] (initial (NamedNode graphUrl));
         patch (base ++ "groups.ttl") []
           (initial (NamedNode (base ++ "groups.ttl")))])%list
  /\ match fst r with
     | Resolved c =>
         c = {| PeoplePicker.groupNode := groupNode;
                PeoplePicker.groupGraphNode := NamedNode graphUrl |}
     | _ => True
     end.
Proof.
  intros graphUrl groupNode initial r.
  subst r. unfold PeoplePicker.createNewGroup.
  cbn [map PeoplePicker.forEach fst snd value].
  unfold bind, emit, ret. cbn [calls store web element].
  match goal with
  | |- context [PeoplePicker.deliverAll ?pf ?jobs ?arr ?st0 ?w0] =>
      pose proof (deliverAll_frame pf jobs arr st0 w0) as F;
      destruct (PeoplePicker.deliverAll pf jobs arr st0 w0) as [[ps all] w1]
  end.
  cbn [snd calls] in F. destruct F as (F & _ & _).
  cbn [fst snd].
  split.
  - rewrite F, <- app_assoc. reflexivity.
  - destruct all as [| v | e]; auto.
    destruct (PeoplePicker.responseURL e); exact I.
Qed.

(** C7: for every base URL (and whatever the server answers) the group
    resource created by [createNewGroup] is base + 'Group/' + s + '.ttl',
    where s is the first 8 characters of the generated UUID, and the group
    node is that URL followed by '#this': these are the target and the
    subject of the first PATCH that is sent, and the two nodes the promise
    resolves to. *)
Theorem createNewGroup_group_url
  (uuid_v4 : string) (patchFails : string -> bool) (arrival : list nat)
  (base : string) (w : world) :
  let s := slice0 8 uuid_v4 in
  let graphUrl := base ++ "Group/" ++ s ++ ".ttl" in
  let groupNode := NamedNode (graphUrl ++ "#this") in
  let initial := fun namedGraph =>
    [st groupNode (ns.rdf "type") (ns.vcard "Group") namedGraph;
     st groupNode (ns.vcard "fn") (Literal "Untitled Group") namedGraph] in
  let r := PeoplePicker.createNewGroup uuid_v4 patchFails arrival base w in
  (exists rest, uuid_v4 = s ++ rest)
  /\ String.length s = Nat.min 8 (String.length uuid_v4)
  /\ calls (snd r)
     = (calls w
        ++ [patch graphUrl [] (initial (NamedNode graphUrl));
            patch (base ++ "groups.ttl") []
              (initial (NamedNode (base ++ "groups.ttl")))])%list
  /\ match fst r with
     | Resolved c =>
         c = {| PeoplePicker.groupNode := groupNode;
                PeoplePicker.groupGraphNode := NamedNode graphUrl |}
     | _ => True
     end
  /\ fst (PeoplePicker.createNewGroup uuid_v4 (fun _ => false) [0; 1] base w)
     = Resolved {| PeoplePicker.groupNode := groupNode;
                   PeoplePicker.groupGraphNode := NamedNode graphUrl |}.
Proof.
  intros s graphUrl groupNode initial r.
  split; [apply slice0_prefix|].
  split; [apply slice0_length|].
  pose proof (createNewGroup_requests uuid_v4 patchFails arrival base w)
    as [Hcalls Hres].
  repeat split; [exact Hcalls | exact Hres].
Qed.

(** C1, as stated, fails: the two PATCH requests are sent while the array of
    target graphs is mapped, before any response is seen, so the PATCH
    against the group index is attempted also when the PATCH against the
    group's own graph fails. *)
Lemma createNewGroup_index_patch_not_withheld :
  ~ (forall (uuid_v4 : string) (patchFails : string -> bool)
            (arrival : list nat) (base : string) (w : world),
        let graphUrl := base ++ "Group/" ++ slice0 8 uuid_v4 ++ ".ttl" in
        let r := PeoplePicker.createNewGroup uuid_v4 patchFails arrival base w in
        patchFails graphUrl = true ->
        (forall toDel toIns,
            ~ In (patch (base ++ "groups.ttl") toDel toIns) (calls (snd r)))
        /\ fst r
           = Rejected (Error ("Couldn't create new group.  PATCH failed for ("
                                ++ graphUrl ++ ")"))).
Proof.
  intro claim.
  specialize (claim "110ec58a-a0f2-4ac4-8393-c866d813b8d1"
                (String.eqb "https://example.org/profile/Group/110ec58a.ttl")
                [0; 1] "https://example.org/profile/"
                {| store := {| statements := []; fetched := [];
                               dropsDuplicates := true |};
                   web := fun _ => None; element := []; calls := [] |}
                eq_refl).
  destruct claim as [never _].
  eapply never. vm_compute. right. left. reflexivity.
Qed.

(** C1, amended: [createNewGroup] always sends both PATCH requests, the one
    against the group's own graph first and the one against the group index
    second, before either outcome is known; when the PATCH against the
    group's own graph fails and its response arrives before any failure of
    the index PATCH, [createNewGroup] rejects with the error that names the
    group's own resource URL. *)
Theorem createNewGroup_own_graph_failure
  (uuid_v4 : string) (patchFails : string -> bool) (pre post : list nat)
  (base : string) (w : world) :
  let graphUrl := base ++ "Group/" ++ slice0 8 uuid_v4 ++ ".ttl" in
  let indexUrl := base ++ "groups.ttl" in
  let groupNode := NamedNode (graphUrl ++ "#this") in
  let initial := fun namedGraph =>
    [st groupNode (ns.rdf "type") (ns.vcard "Group") namedGraph;
     st groupNode (ns.vcard "fn") (Literal "Untitled Group") namedGraph] in
  let r := PeoplePicker.createNewGroup uuid_v4 patchFails
             (pre ++ 0 :: post) base w in
  patchFails graphUrl = true ->
  ~ In 0 pre ->
  patchFails indexUrl = false \/ ~ In 1 pre ->
  calls (snd r)
  = (calls w ++ [patch graphUrl [] (initial (NamedNode graphUrl));
                 patch indexUrl [] (initial (NamedNode indexUrl))])%list
  /\ fst r
     = Rejected (Error ("Couldn't create new group.  PATCH failed for ("
                          ++ graphUrl ++ ")")).
Proof.
  intros graphUrl indexUrl groupNode initial r Hfail H0 H1.
  split.
  - apply (createNewGroup_requests uuid_v4 patchFails (pre ++ 0 :: post) base w).
  - subst r. unfold PeoplePicker.createNewGroup.
    cbn [map PeoplePicker.forEach fst snd value].
    unfold bind, emit, ret. cbn [calls store web element].
    rewrite deliverAll_app.
    match goal with
    | |- context [PeoplePicker.deliverAll ?pf [?j0; (?g1, ?i1)] pre
                    ([Pending; ?p1], Pending) ?w0] =>
        destruct (deliverAll_before_first pf j0 g1 i1 pre p1 w0 H0 H1)
          as (p1' & w' & E); rewrite E
    end.
    rewrite deliverAll_cons.
    unfold PeoplePicker.deliver at 1. cbn [nth_error value].
    fold graphUrl. rewrite Hfail. unfold ret at 1. cbn [reject].
    match goal with
    | |- context [PeoplePicker.deliverAll ?pf ?jobs post (?ps, Rejected ?e) ?w0] =>
        pose proof (deliverAll_rejected pf jobs post ps e w0) as R;
        destruct (PeoplePicker.deliverAll pf jobs post (ps, Rejected e) w0)
          as [[ps' all'] w'']
    end.
    cbn [fst snd] in *. subst all'. reflexivity.
Qed.

Lemma createNewGroup_own_graph_failure_witness :
  let patchFails := String.eqb "https://example.org/profile/Group/110ec58a.ttl" in
  let w := {| store := {| statements := []; fetched := [];
                          dropsDuplicates := true |};
              web := fun _ => None; element := []; calls := [] |} in
  let r := PeoplePicker.createNewGroup "110ec58a-a0f2-4ac4-8393-c866d813b8d1"
             patchFails ([1] ++ 0 :: []) "https://example.org/profile/" w in
  (patchFails "https://example.org/profile/Group/110ec58a.ttl" = true
   /\ ~ In 0 [1]
   /\ (patchFails "https://example.org/profile/groups.ttl" = false
       \/ ~ In 1 [1]))
  /\ fst r
     = Rejected (Error "Couldn't create new group.  PATCH failed for (https://example.org/profile/Group/110ec58a.ttl)").
Proof.
  intros patchFails w r.
  assert (H1 : patchFails "https://example.org/profile/Group/110ec58a.ttl" = true)
    by reflexivity.
  assert (H2 : ~ In 0 [1]) by (simpl; intros [H|[]]; discriminate).
  assert (H3 : patchFails "https://example.org/profile/groups.ttl" = false
               \/ ~ In 1 [1]) by (left; reflexivity).
  split; [repeat split; assumption|].
  exact (proj2 (createNewGroup_own_graph_failure
                  "110ec58a-a0f2-4ac4-8393-c866d813b8d1" patchFails [1] []
                  "https://example.org/profile/" w H1 H2 H3)).
Defined.

(** ** The regular expression of [findGroupIndex] *)

Lemma exec_Lit (l : string) : forall s k,
  RegExp.exec (RegExp.Lit l) s k
  = match stripPrefix l s with
    | Some rest => k rest
    | None => None
    end.
Proof.
  induction l as [|a l IH]; intros s k; simpl.
  - now destruct s.
  - destruct s as [|b s]; [reflexivity|].
    destruct (Ascii.eqb b a); [apply IH | reflexivity].
Qed.

Lemma stripPrefix_Some (l : string) : forall s rest,
  stripPrefix l s = Some rest -> s = l ++ rest.
Proof.
  induction l as [|a l IH]; intros s rest; simpl.
  - destruct s; intro H; now inversion H.
  - destruct s as [|b s]; [discriminate|].
    destruct (Ascii.eqb b a) eqn:E; [|discriminate].
    apply Ascii.eqb_eq in E. subst b. intro H. now rewrite (IH _ _ H).
Qed.

Lemma stripPrefix_app (l : string) : forall rest,
  stripPrefix l (l ++ rest) = Some rest.
Proof.
  induction l as [|a l IH]; intro rest; simpl.
  - now destruct rest.
  - now rewrite Ascii.eqb_refl.
Qed.

(** [.*$] succeeds exactly on a line: it has to run to the end of input. *)
Lemma iterate_dot_eos (n : nat) : forall s,
  String.length s <= n ->
  RegExp.iterate (RegExp.exec RegExp.Dot)
    (fun s' => RegExp.exec RegExp.Eos s' Some) n s
  = if noLineTerminator s then Some "" else None.
Proof.
  induction n as [|n IH]; intros [|a s] L; simpl in L;
    try reflexivity; [lia|].
  cbn [RegExp.iterate RegExp.exec noLineTerminator].
  destruct (RegExp.lineTerminator a); [reflexivity|].
  assert (E : Nat.ltb (String.length s) (String.length (String a s)) = true)
    by (apply Nat.ltb_lt; simpl; lia).
  rewrite E, IH by lia.
  now destruct (noLineTerminator s).
Qed.

(** Where the expression matches: at [book.ttl] followed by the end of the
    input, or by [#] and no line terminator up to the end of the input. *)
Lemma exec_bookTtl (s : string) :
  RegExp.exec PeoplePicker.bookTtl s Some
  = match stripPrefix "book.ttl" s with
    | None => None
    | Some "" => Some ""
    | Some (String c f) =>
        if Ascii.eqb c "#" && noLineTerminator f then Some "" else None
    end.
Proof.
  unfold PeoplePicker.bookTtl.
  cbn [RegExp.exec]. rewrite exec_Lit.
  destruct (stripPrefix "book.ttl" s) as [[|c f]|]; [reflexivity| |reflexivity].
  cbn [RegExp.exec].
  destruct (Ascii.eqb c "#"); [|reflexivity].
  rewrite iterate_dot_eos by lia.
  now destruct (noLineTerminator f).
Qed.

Lemma exec_bookTtl_none (s : string) (c : ascii) :
  String.get 8 s = Some c -> c <> "#"%char ->
  RegExp.exec PeoplePicker.bookTtl s Some = None.
Proof.
  intros G N. rewrite exec_bookTtl.
  destruct (stripPrefix "book.ttl" s) as [rest|] eqn:E; [|reflexivity].
  apply stripPrefix_Some in E. subst s. simpl in G.
  destruct rest as [|d f]; [discriminate|].
  simpl in G. injection G as ->.
  apply Ascii.eqb_neq in N. now rewrite N.
Qed.

(** Inside a prefix without [#] no match can start: nine characters on,
    there is no [#] and the input has not ended. *)
Lemma ninth_char (a : ascii) (q tail : string) :
  noHash (String a q) = true ->
  tail = "" \/ (exists f, tail = String "#" f) ->
  exists c, String.get 8 (String a q ++ "book.ttl" ++ tail) = Some c
            /\ c <> "#"%char.
Proof.
  intros H T.
  destruct q as [|c1 [|c2 [|c3 [|c4 [|c5 [|c6 [|c7 [|c8 q]]]]]]]];
    try (simpl; eexists; split; [reflexivity | discriminate]).
  simpl in H. rewrite !andb_true_iff in H.
  destruct H as (_ & _ & _ & _ & _ & _ & _ & _ & H & _).
  simpl. exists c8. split; [reflexivity|].
  intros ->. discriminate.
Qed.

(** The leftmost match decides: a fragment that itself ends in [book.ttl]
    goes with the rest of the fragment, and [book.ttl] in the middle of a
    path is left alone. *)
Example replace_bookTtl_in_fragment :
  RegExp.replace PeoplePicker.bookTtl ""
    "https://example.org/profile/book.ttl#mybook.ttl"
  = "https://example.org/profile/".
Proof. reflexivity. Qed.

Example replace_bookTtl_in_path :
  RegExp.replace PeoplePicker.bookTtl "" "https://example.org/book.ttl/x"
  = "https://example.org/book.ttl/x".
Proof. reflexivity. Qed.

Lemma replace_bookTtl (prefix : string) : forall tail,
  noHash prefix = true ->
  tail = "" \/ (exists f, tail = String "#" f /\ noLineTerminator f = true) ->
  RegExp.replace PeoplePicker.bookTtl "" (prefix ++ "book.ttl" ++ tail)
  = prefix.
Proof.
  induction prefix as [|a q IH]; intros tail H T.
  - assert (E : RegExp.exec PeoplePicker.bookTtl ("book.ttl" ++ tail) Some
                = Some "").
    { rewrite exec_bookTtl, stripPrefix_app.
      destruct T as [->|(f & -> & L)]; [reflexivity|].
      now rewrite L. }
    cbn [append] in *. cbn [RegExp.replace]. now rewrite E.
  - destruct (ninth_char a q tail H) as (c & G & N).
    { destruct T as [->|(f & -> & _)]; [now left | right; now exists f]. }
    cbn [append] in *. cbn [RegExp.replace].
    rewrite (exec_bookTtl_none _ c G N).
    f_equal. apply IH; [|assumption].
    simpl in H. now apply andb_true_iff in H.
Qed.

(** ** The fetcher *)

Lemma fetch_eq (uri : string) (w : world) :
  fetch uri w
  = let asked := (calls w ++ [nowOrWhenFetched uri])%list in
    let doc := docpart uri in
    if existsb (String.eqb doc) (fetched (store w))
    then (None, {| store := store w; web := web w; element := element w;
                   calls := asked |})
    else
      match web w doc with
      | None =>
          (Some (FetchError doc),
           {| store := store w; web := web w; element := element w;
              calls := asked |})
      | Some triples =>
          (None,
           {| store :=
                {| statements :=
                     statements
                       (kb.addAll (store w)
                          (map (fun t => match t with
                                         | (s, p, o) => st s p o (NamedNode doc)
                                         end) triples));
                   fetched := doc :: fetched (store w);
                   dropsDuplicates := dropsDuplicates (store w) |};
              web := web w; element := element w; calls := asked |})
      end.
Proof.
  unfold fetch, bind, emit, getStore, putStore, ret. simpl.
  destruct (existsb _ _); [reflexivity|].
  change (web _ (docpart uri)) with (web w (docpart uri)).
  destruct (web w (docpart uri)); reflexivity.
Qed.

Lemma fetch_frame (uri : string) (w : world) :
  let w' := snd (fetch uri w) in
  calls w' = (calls w ++ [nowOrWhenFetched uri])%list
  /\ element w' = element w /\ web w' = web w.
Proof.
  rewrite fetch_eq. cbv zeta.
  destruct (existsb _ _); [simpl; auto|].
  destruct (web w (docpart uri)); simpl; auto.
Qed.

(** A document that was fetched successfully counts as loaded ... *)
Lemma fetch_ok_fetched (uri : string) (w : world) :
  fst (fetch uri w) = None ->
  existsb (String.eqb (docpart uri)) (fetched (store (snd (fetch uri w))))
  = true.
Proof.
  rewrite fetch_eq. cbv zeta.
  destruct (existsb _ (fetched (store w))) eqn:E; [simpl; auto|].
  destruct (web w (docpart uri)); simpl; [|discriminate].
  intros _. now rewrite String.eqb_refl.
Qed.

(** ... and fetching a loaded document again leaves the store alone. *)
Lemma fetch_again (uri : string) (w : world) :
  existsb (String.eqb (docpart uri)) (fetched (store w)) = true ->
  fst (fetch uri w) = None /\ store (snd (fetch uri w)) = store w.
Proof.
  rewrite fetch_eq. cbv zeta. intros ->. simpl. auto.
Qed.

Lemma filter_none {A} (test : A -> bool) (l : list A) :
  (forall x, In x l -> test x = false) -> filter test l = [].
Proof.
  induction l as [|a l IH]; intro H; simpl; [reflexivity|].
  rewrite (H a) by now left. apply IH. intros x Hx. apply H. now right.
Qed.

(** ** findGroupIndex *)

(** C5, as stated, fails: the registration is looked up in the whole store,
    whatever graph a statement belongs to.  With an address book registered
    by a document loaded earlier, a type index without any registration
    does not make [findGroupIndex] fail. *)
Lemma findGroupIndex_other_document_registers :
  ~ (forall (typeIndexUrl : string) (w : world)
            (document : list (term * term * term)),
        let r := PeoplePicker.findGroupIndex typeIndexUrl w in
        web w (docpart typeIndexUrl) = Some document ->
        (forall s,
            ~ In (s, ns.solid "forClass", ns.vcard "AddressBook") document) ->
        fst r = Rejected
                  (Error "no address book registered in the solid type index")
        /\ calls (snd r) = (calls w ++ [nowOrWhenFetched typeIndexUrl])%list).
Proof.
  intro claim.
  pose (other := NamedNode "https://bob.example/settings/publicTypeIndex.ttl").
  pose (registration :=
          NamedNode "https://bob.example/settings/publicTypeIndex.ttl#ab").
  specialize (claim "https://alice.example/settings/privateTypeIndex.ttl"
                {| store :=
                     {| statements :=
                          [st registration (ns.solid "forClass")
                              (ns.vcard "AddressBook") other;
                           st registration (ns.solid "instance")
                              (NamedNode "https://bob.example/contacts/book.ttl")
                              other];
                        fetched :=
                          ["https://bob.example/settings/publicTypeIndex.ttl"];
                        dropsDuplicates := true |};
                   web := fun _ => Some [];
                   element := []; calls := [] |}
                [] eq_refl (fun s H => H)).
  destruct claim as [rejected _].
  vm_compute in rejected. discriminate.
Qed.

(** C5, amended: whenever the store, once the type index is fetched, holds
    no registration statement (in any graph) whose object is the class
    AddressBook, [findGroupIndex] rejects with the missing-address-book
    error; it derives no URL and makes no call besides the fetch of the
    type index, so no group index is fetched. *)
Theorem findGroupIndex_no_address_book (typeIndexUrl : string) (w : world) :
  let w1 := snd (fetch typeIndexUrl w) in
  let r := PeoplePicker.findGroupIndex typeIndexUrl w in
  fst (fetch typeIndexUrl w) = None ->
  (forall x, In x (statements (store w1)) ->
             predicate x = ns.solid "forClass" ->
             object x <> ns.vcard "AddressBook") ->
  fst r = Rejected (Error "no address book registered in the solid type index")
  /\ calls (snd r) = (calls w ++ [nowOrWhenFetched typeIndexUrl])%list
  /\ store (snd r) = store w1.
Proof.
  intros w1 r Hok Hnone. subst r w1.
  pose proof (fetch_frame typeIndexUrl w) as (Fc & _ & _).
  unfold PeoplePicker.findGroupIndex, bind.
  destruct (fetch typeIndexUrl w) as [err w1]. simpl in *. subst err.
  assert (E : kb.statementsMatching (store w1) None
                (Some (ns.solid "forClass")) (Some (ns.vcard "AddressBook"))
                None = []).
  { apply filter_none. intros x Hx. unfold kb.matches, kb.fits.
    cbn [andb]. rewrite andb_true_r.
    destruct (equals (ns.solid "forClass") (predicate x)) eqn:Ep;
      [|reflexivity].
    destruct (equals (ns.vcard "AddressBook") (object x)) eqn:Eo;
      [|reflexivity].
    apply equals_eq in Ep. apply equals_eq in Eo.
    exfalso. apply (Hnone x Hx); congruence. }
  unfold getStore. rewrite E. simpl. auto.
Qed.

Lemma findGroupIndex_no_address_book_witness :
  let w := {| store := {| statements := []; fetched := [];
                          dropsDuplicates := false |};
              web := fun _ =>
                Some [(NamedNode "https://alice.example/settings/privateTypeIndex.ttl#n1",
                       ns.solid "forClass", ns.vcard "Note")];
              element := []; calls := [] |} in
  let url := "https://alice.example/settings/privateTypeIndex.ttl" in
  fst (fetch url w) = None
  /\ fst (PeoplePicker.findGroupIndex url w)
     = Rejected (Error "no address book registered in the solid type index")
  /\ calls (snd (PeoplePicker.findGroupIndex url w)) = [nowOrWhenFetched url].
Proof.
  intros w url.
  assert (Hok : fst (fetch url w) = None) by reflexivity.
  assert (Hnone : forall x, In x (statements (store (snd (fetch url w)))) ->
                            predicate x = ns.solid "forClass" ->
                            object x <> ns.vcard "AddressBook").
  { simpl. intros x [<-|[]] _. discriminate. }
  split; [exact Hok|].
  destruct (findGroupIndex_no_address_book url w Hok Hnone) as (R & C & _).
  split; [exact R | exact C].
Defined.

(** C6: for every registration whose instance URL is prefix + 'book.ttl'
    or prefix + 'book.ttl#' + fragment (the fragment being what follows the
    first '#', and a URL holding no line terminator), [findGroupIndex]
    resolves to the base URL prefix (the instance URL without that suffix,
    fragment included), the group index prefix + 'groups.ttl' and the group
    container prefix + 'Group/'. *)
Theorem findGroupIndex_base_url
  (typeIndexUrl : string) (w : world)
  (registration instance0 : statement) (registrations instances : list statement)
  (prefix fragment : string) :
  let w1 := snd (fetch typeIndexUrl w) in
  fst (fetch typeIndexUrl w) = None ->
  kb.statementsMatching (store w1) None (Some (ns.solid "forClass"))
    (Some (ns.vcard "AddressBook")) None = registration :: registrations ->
  kb.statementsMatching (store w1) (Some (subject registration))
    (Some (ns.solid "instance")) None None = instance0 :: instances ->
  noHash prefix = true ->
  noLineTerminator fragment = true ->
  value (object instance0) = prefix ++ "book.ttl"
  \/ value (object instance0) = prefix ++ "book.ttl#" ++ fragment ->
  fst (PeoplePicker.findGroupIndex typeIndexUrl w)
  = Resolved {| PeoplePicker.bookBaseUrl := prefix;
                PeoplePicker.groupIndexUrl := prefix ++ "groups.ttl";
                PeoplePicker.groupContainerUrl := prefix ++ "Group/" |}.
Proof.
  intros w1 Hok Hreg Hinst Hprefix Hfrag Hurl. subst w1.
  unfold PeoplePicker.findGroupIndex, bind.
  destruct (fetch typeIndexUrl w) as [err w1]. simpl in *. subst err.
  unfold getStore. rewrite Hreg, Hinst. cbn [List.length Nat.eqb ret fst resolve].
  assert (E : RegExp.replace PeoplePicker.bookTtl "" (value (object instance0))
              = prefix).
  { destruct Hurl as [-> | ->].
    - rewrite <- (replace_bookTtl prefix "") at 2 by auto.
      reflexivity.
    - rewrite <- (replace_bookTtl prefix (String "#" fragment)) at 2
        by (auto; right; now exists fragment).
      reflexivity. }
  now rewrite E.
Qed.

Lemma findGroupIndex_base_url_witness :
  let url := "https://example.org/settings/privateTypeIndex.ttl" in
  let ab := NamedNode "https://example.org/settings/privateTypeIndex.ttl#ab" in
  let w := {| store := {| statements := []; fetched := [];
                          dropsDuplicates := false |};
              web := fun _ =>
                Some [(ab, ns.solid "forClass", ns.vcard "AddressBook");
                      (ab, ns.solid "instance",
                       NamedNode "https://example.org/profile/book.ttl#this")];
              element := []; calls := [] |} in
  fst (PeoplePicker.findGroupIndex url w)
  = Resolved {| PeoplePicker.bookBaseUrl := "https://example.org/profile/";
                PeoplePicker.groupIndexUrl :=
                  "https://example.org/profile/groups.ttl";
                PeoplePicker.groupContainerUrl :=
                  "https://example.org/profile/Group/" |}.
Proof.
  intros url ab w.
  exact (findGroupIndex_base_url url w
           (st ab (ns.solid "forClass") (ns.vcard "AddressBook") (NamedNode url))
           (st ab (ns.solid "instance")
               (NamedNode "https://example.org/profile/book.ttl#this")
               (NamedNode url))
           [] [] "https://example.org/profile/" "this"
           eq_refl eq_refl eq_refl eq_refl eq_refl (or_intror eq_refl)).
Defined.

(** ** loadGroups *)

(** C9: for every store state after a successful fetch of the group index,
    [loadGroups] resolves to exactly the objects of the 'includesGroup'
    statements whose subject is the root node of the address book (base URL
    + 'book.ttl#this'), in the order the store holds them. *)
Theorem loadGroups_includesGroup_objects
  (bookBaseUrl groupIndexUrl : string) (w : world) :
  let w1 := snd (fetch groupIndexUrl w) in
  let root := NamedNode (bookBaseUrl ++ "book.ttl#this") in
  fst (fetch groupIndexUrl w) = None ->
  fst (GroupPicker.loadGroups bookBaseUrl groupIndexUrl w)
  = Resolved (map object (filter (isGroupEntry root) (statements (store w1))))
  /\ (forall x, isGroupEntry root x = true
                <-> subject x = root
                    /\ predicate x = ns.vcard "includesGroup").
Proof.
  intros w1 root Hok. subst w1. split.
  - unfold GroupPicker.loadGroups, bind.
    destruct (fetch groupIndexUrl w) as [err w1]. simpl in *. subst err.
    unfold getStore, ret, kb.match_, kb.statementsMatching. cbn [fst resolve].
    do 2 f_equal.
    apply filter_ext. intro x. unfold kb.matches, isGroupEntry, kb.fits.
    now rewrite !andb_true_r.
  - intro x. unfold isGroupEntry.
    rewrite andb_true_iff, !equals_eq. intuition congruence.
Qed.

Lemma loadGroups_includesGroup_objects_witness :
  let book := NamedNode "https://example.org/profile/book.ttl#this" in
  let g1 := NamedNode "https://example.org/profile/Group/1a2b3c4d.ttl#this" in
  let g2 := NamedNode "https://example.org/profile/Group/99aa88bb.ttl#this" in
  let w := {| store := {| statements := []; fetched := [];
                          dropsDuplicates := false |};
              web := fun _ =>
                Some [(book, ns.vcard "includesGroup", g1);
                      (g1, ns.vcard "fn", Literal "Family");
                      (book, ns.vcard "includesGroup", g2)];
              element := []; calls := [] |} in
  fst (GroupPicker.loadGroups "https://example.org/profile/"
         "https://example.org/profile/groups.ttl" w)
  = Resolved [g1; g2].
Proof.
  intros book g1 g2 w.
  exact (proj1 (loadGroups_includesGroup_objects
                  "https://example.org/profile/"
                  "https://example.org/profile/groups.ttl" w eq_refl)).
Defined.

(** ** GroupBuilder *)

Lemma render_frame (iconBase : string) (this : GroupBuilder.t) (w : world) :
  let w' := snd (GroupBuilder.render iconBase this w) in
  store w' = store w /\ calls w' = calls w /\ web w' = web w
  /\ showsError (element w') = false.
Proof.
  unfold GroupBuilder.render, bind, getStore, clearElement, appendChild.
  simpl. auto.
Qed.

Lemma onGroupChanged_eq (this : GroupBuilder.t) err changeType agent w :
  GroupBuilder.onGroupChanged this err changeType agent w
  = (tt, {| store := store w; web := web w; element := element w;
            calls := (calls w
                      ++ if GroupBuilder.givenGroupChangedCb this
                         then [groupChangedCb err changeType agent]
                         else [])%list |}).
Proof.
  unfold GroupBuilder.onGroupChanged, emit, ret.
  destruct (GroupBuilder.givenGroupChangedCb this); [reflexivity|].
  rewrite app_nil_r. now destruct w.
Qed.

Lemma occurrences_holds (x : statement) (f : formula) :
  kb.holds f x = negb (Nat.ltb (occurrences x f) 1).
Proof.
  unfold kb.holds, occurrences.
  induction (statements f) as [|y l IH]; simpl; [reflexivity|].
  destruct (statement_eqb x y); simpl; [reflexivity | exact IH].
Qed.

Lemma occurrences_add_new (x : statement) (f : formula) :
  kb.holds f x = false ->
  statements (kb.add f x) = (statements f ++ [x])%list
  /\ occurrences x (kb.add f x) = 1.
Proof.
  intro H. unfold kb.add. rewrite H, andb_false_r. simpl. split; [reflexivity|].
  rewrite occurrences_holds in H. apply negb_false_iff, Nat.ltb_lt in H.
  unfold occurrences in *. simpl.
  rewrite filter_app, length_app. simpl.
  rewrite statement_eqb_refl. simpl. lia.
Qed.

(** What [add] does once the fetch has succeeded: the membership statement
    is added unless the store holds it, the callback is told 'added', the
    promise settles by the first of [reject] and [resolve], and the builder
    is rendered again. *)
Lemma add_fetched_eq (iconBase : string) (this : GroupBuilder.t)
  (webId : string) (w w1 : world) :
  fetch webId w = (None, w1) ->
  let webIdNode := NamedNode webId in
  let m := GroupBuilder.membership this webIdNode in
  let f := store w1 in
  GroupBuilder.add iconBase this webId w
  = (if GroupBuilder.notPerson (kb.any f (Some webIdNode) (Some (ns.rdf "type")))
     then Rejected (Error "Only people supported right now")
     else Resolved webIdNode,
     snd (GroupBuilder.render iconBase this
            {| store := if kb.holds f m then f else kb.add f m;
               web := web w1; element := element w1;
               calls := (calls w1
                         ++ if GroupBuilder.givenGroupChangedCb this
                            then [groupChangedCb None (Some "added")
                                    (Some webIdNode)]
                            else [])%list |})).
Proof.
  intros F webIdNode m f.
  unfold GroupBuilder.add, bind. rewrite F. unfold getStore.
  fold webIdNode. fold m. fold f.
  unfold kb.match_, kb.statementsMatching.
  rewrite (filter_ext _ _ (matches_exact m)).
  rewrite (occurrences_holds m f). unfold occurrences.
  destruct (Nat.ltb (List.length (filter (statement_eqb m) (statements f))) 1);
    cbn [negb]; unfold putStore, ret; cbv beta iota;
    rewrite onGroupChanged_eq; cbv beta iota; cbn [store web element calls].
  2: replace {| store := store w1; web := web w1; element := element w1;
                calls := calls w1 |} with w1 by now destruct w1.
  all: destruct (GroupBuilder.render iconBase this _) as [[] w3];
    destruct (GroupBuilder.notPerson _); reflexivity.
Qed.


Lemma add_store_after (iconBase : string) (this : GroupBuilder.t)
  (webId : string) (w : world) :
  let w1 := snd (fetch webId w) in
  let m := GroupBuilder.membership this (NamedNode webId) in
  let r := GroupBuilder.add iconBase this webId w in
  fst (fetch webId w) = None ->
  store (snd r) = (if kb.holds (store w1) m then store w1
                   else kb.add (store w1) m)
  /\ calls (snd r)
     = (calls w ++ nowOrWhenFetched webId
                   :: if GroupBuilder.givenGroupChangedCb this
                      then [groupChangedCb None (Some "added")
                              (Some (NamedNode webId))]
                      else [])%list
  /\ showsError (element (snd r)) = false.
Proof.
  intros w1 m r Hok. subst w1 r.
  pose proof (fetch_frame webId w) as (Fc & _ & _).
  destruct (fetch webId w) as [err w1] eqn:F. simpl in *. subst err.
  rewrite (add_fetched_eq iconBase this webId w w1 F). cbn [snd].
  match goal with
  | |- context [GroupBuilder.render iconBase this ?w0] =>
      destruct (render_frame iconBase this w0) as (Rs & Rc & _ & Re)
  end.
  rewrite Rs, Rc, Re. cbn [store calls]. rewrite Fc, <- app_assoc.
  auto.
Qed.




(** C10: for every call of [add] whose fetch succeeds (a changed-callback
    having been supplied), the callback is invoked, once, with
    (null, 'added', member), whether the membership statement was added or
    the member was in the group already and the store stayed as it was: the
    calls made are the same in both cases. *)
Theorem add_reports_added_regardless (iconBase : string)
  (this : GroupBuilder.t) (webId : string) (w : world) :
  let w1 := snd (fetch webId w) in
  let m := GroupBuilder.membership this (NamedNode webId) in
  let r := GroupBuilder.add iconBase this webId w in
  GroupBuilder.givenGroupChangedCb this = true ->
  fst (fetch webId w) = None ->
  calls (snd r)
  = (calls w ++ [nowOrWhenFetched webId;
                 groupChangedCb None (Some "added") (Some (NamedNode webId))])%list
  /\ statements (store (snd r))
     = (statements (store w1) ++ if kb.holds (store w1) m then [] else [m])%list.
Proof.
  intros w1 m r Hcb Hok.
  pose proof (add_store_after iconBase this webId w Hok) as (S & C & _).
  fold w1 m r in S, C. rewrite Hcb in C. split; [exact C|].
  rewrite S. destruct (kb.holds (store w1) m) eqn:H.
  - now rewrite app_nil_r.
  - apply occurrences_add_new, H.
Qed.

Lemma add_reports_added_regardless_witness :
  let bob := NamedNode "https://bob.example/profile#me" in
  let this := {| GroupBuilder.groupGraph :=
                   NamedNode "https://example.org/profile/Group/1a2b3c4d.ttl";
                 GroupBuilder.groupNode :=
                   NamedNode "https://example.org/profile/Group/1a2b3c4d.ttl#this";
                 GroupBuilder.givenGroupChangedCb := true |} in
  let w := {| store := {| statements := [GroupBuilder.membership this bob];
                          fetched := []; dropsDuplicates := false |};
              web := fun _ => Some [(bob, ns.rdf "type", ns.foaf "Person")];
              element := []; calls := [] |} in
  let r := GroupBuilder.add "icons/" this "https://bob.example/profile#me" w in
  (GroupBuilder.givenGroupChangedCb this = true
   /\ fst (fetch "https://bob.example/profile#me" w) = None)
  /\ calls (snd r)
     = [nowOrWhenFetched "https://bob.example/profile#me";
        groupChangedCb None (Some "added") (Some bob)]
  /\ occurrences (GroupBuilder.membership this bob) (store (snd r)) = 1.
Proof.
  intros bob this w r.
  assert (Hcb : GroupBuilder.givenGroupChangedCb this = true) by reflexivity.
  assert (Hok : fst (fetch "https://bob.example/profile#me" w) = None)
    by reflexivity.
  split; [split; assumption|].
  split.
  - exact (proj1 (add_reports_added_regardless "icons/" this
                    "https://bob.example/profile#me" w Hcb Hok)).
  - reflexivity.
Defined.

(** C3: calling [add] twice with the same identifier leaves exactly one
    statement (group node, hasMember, node of the identifier, group graph)
    in the store, never two: the second call finds the statement and adds
    nothing.  (The store is taken to hold at most one such statement when
    the first fetch is done.) *)
Theorem add_twice_one_membership (iconBase : string) (this : GroupBuilder.t)
  (webId : string) (w : world) :
  let quad := st (GroupBuilder.groupNode this) (ns.vcard "hasMember")
                 (NamedNode webId) (GroupBuilder.groupGraph this) in
  let r1 := GroupBuilder.add iconBase this webId w in
  let r2 := GroupBuilder.add iconBase this webId (snd r1) in
  fst (fetch webId w) = None ->
  List.length (filter (statement_eqb quad)
                 (statements (store (snd (fetch webId w))))) <= 1 ->
  List.length (filter (statement_eqb quad) (statements (store (snd r2)))) = 1
  /\ In quad (statements (store (snd r2)))
  /\ store (snd r2) = store (snd r1).
Proof.
  intros quad r1 r2 Hok Hone.
  change (occurrences quad (store (snd (fetch webId w))) <= 1) in Hone.
  change (occurrences quad (store (snd r2)) = 1
          /\ In quad (statements (store (snd r2)))
          /\ store (snd r2) = store (snd r1)).
  pose proof (add_store_after iconBase this webId w Hok) as (S1 & _ & _).
  change (GroupBuilder.membership this (NamedNode webId)) with quad in S1.
  fold r1 in S1.
  pose proof (fetch_ok_fetched webId w Hok) as Hf.
  set (f1 := store (snd (fetch webId w))) in *.
  assert (Held : kb.holds (store (snd r1)) quad = true
                 /\ occurrences quad (store (snd r1)) = 1
                 /\ fetched (store (snd r1)) = fetched f1).
  { rewrite S1. destruct (kb.holds f1 quad) eqn:H.
    - repeat split; auto. rewrite occurrences_holds in H.
      apply negb_true_iff, Nat.ltb_ge in H. lia.
    - split; [apply holds_In, add_In|].
      split; [apply occurrences_add_new, H | apply add_fetched]. }
  destruct Held as (H1 & O1 & F1).
  assert (Hagain : existsb (String.eqb (docpart webId))
                     (fetched (store (snd r1))) = true) by now rewrite F1.
  destruct (fetch_again webId (snd r1) Hagain) as (Hok2 & Hst2).
  pose proof (add_store_after iconBase this webId (snd r1) Hok2) as (S2 & _ & _).
  change (GroupBuilder.membership this (NamedNode webId)) with quad in S2.
  fold r2 in S2. rewrite Hst2, H1 in S2.
  rewrite S2. split; [exact O1|]. split; [now apply holds_In | reflexivity].
Qed.

Lemma add_twice_one_membership_witness :
  let bob := NamedNode "https://bob.example/profile#me" in
  let this := {| GroupBuilder.groupGraph :=
                   NamedNode "https://example.org/profile/Group/1a2b3c4d.ttl";
                 GroupBuilder.groupNode :=
                   NamedNode "https://example.org/profile/Group/1a2b3c4d.ttl#this";
                 GroupBuilder.givenGroupChangedCb := false |} in
  let quad := st (NamedNode "https://example.org/profile/Group/1a2b3c4d.ttl#this")
                 (ns.vcard "hasMember") bob
                 (NamedNode "https://example.org/profile/Group/1a2b3c4d.ttl") in
  let w := {| store := {| statements := []; fetched := [];
                          dropsDuplicates := false |};
              web := fun _ => Some [(bob, ns.rdf "type", ns.foaf "Person")];
              element := []; calls := [] |} in
  let webId := "https://bob.example/profile#me" in
  let r1 := GroupBuilder.add "icons/" this webId w in
  let r2 := GroupBuilder.add "icons/" this webId (snd r1) in
  (fst (fetch webId w) = None
   /\ List.length (filter (statement_eqb quad)
                     (statements (store (snd (fetch webId w))))) <= 1)
  /\ List.length (filter (statement_eqb quad) (statements (store (snd r2)))) = 1.
Proof.
  intros bob this quad w webId r1 r2.
  assert (Hok : fst (fetch webId w) = None) by reflexivity.
  assert (Hone : List.length (filter (statement_eqb quad)
                                (statements (store (snd (fetch webId w))))) <= 1)
    by (vm_compute; lia).
  split; [split; assumption|].
  exact (proj1 (add_twice_one_membership "icons/" this webId w Hok Hone)).
Defined.

Lemma statement_eq_dec (a b : statement) : {a = b} + {a <> b}.
Proof.
  destruct (statement_eqb a b) eqn:E.
  - left. now apply statement_eqb_eq.
  - right. intros ->. rewrite statement_eqb_refl in E. discriminate.
Qed.

Lemma statement_eqb_neq (a b : statement) :
  statement_eqb a b = false <-> a <> b.
Proof.
  rewrite <- statement_eqb_eq. now destruct (statement_eqb a b).
Qed.

Lemma removeStatement_None (x : statement) (l : list statement) :
  kb.removeStatement x l = None <-> ~ In x l.
Proof.
  induction l as [|y l IH]; simpl.
  - split; auto.
  - destruct (statement_eqb x y) eqn:E.
    + apply statement_eqb_eq in E. subst y. split; [discriminate|].
      intro H. exfalso. apply H. now left.
    + apply statement_eqb_neq in E.
      destruct (kb.removeStatement x l); simpl.
      * split; [discriminate|]. intro H. exfalso.
        destruct (in_dec statement_eq_dec x l) as [i|n].
        -- apply H. now right.
        -- apply IH in n. discriminate.
      * split; [|reflexivity]. intros _ [H|H]; [now apply E|].
        now apply (proj1 IH eq_refl).
Qed.

Lemma appendChild_eq (x : widget) (w : world) :
  appendChild x w
  = (tt, {| store := store w; web := web w;
            element := (element w ++ [x])%list; calls := calls w |}).
Proof. reflexivity. Qed.

(** C8: when the store holds no statement relating the group to the member
    in the group's graph, the click handler of [handleRemove] leaves the
    store as it is and calls no callback; it appends an error block naming
    the member (by name if the store has a non-empty one, by identifier
    otherwise) to the mount element and then renders the builder again,
    which empties the mount element: once the handler returns, no error
    block is shown. *)
Theorem handleRemove_absent_member (iconBase : string) (this : GroupBuilder.t)
  (webIdNode : term) (w : world) :
  let r := GroupBuilder.handleRemove iconBase this webIdNode w in
  let shown :=
    match kb.any (store w) (Some webIdNode) (Some (ns.foaf "name")) with
    | Some n => if Nat.ltb 0 (String.length (value n)) then value n
                else value webIdNode
    | None => value webIdNode
    end in
  ~ In (GroupBuilder.membership this webIdNode) (statements (store w)) ->
  r = (true,
       snd (GroupBuilder.render iconBase this
              (snd (appendChild
                      (errorMessageBlock (escape ("Could not remove " ++ shown)))
                      w))))
  /\ store (snd r) = store w
  /\ calls (snd r) = calls w
  /\ showsError (element (snd r)) = false.
Proof.
  intros r shown Habsent.
  apply removeStatement_None in Habsent.
  assert (E : r = (true,
                   snd (GroupBuilder.render iconBase this
                          (snd (appendChild
                                  (errorMessageBlock
                                     (escape ("Could not remove " ++ shown)))
                                  w))))).
  { subst r shown. unfold GroupBuilder.handleRemove, bind, getStore.
    unfold kb.remove. rewrite Habsent. cbn [option_map].
    destruct (kb.any (store w) (Some webIdNode) (Some (ns.foaf "name")))
      as [n|]; [destruct (Nat.ltb 0 (String.length (value n)))|];
      rewrite !appendChild_eq; cbn [snd];
      match goal with
      | |- context [GroupBuilder.render iconBase this ?w0] =>
          destruct (GroupBuilder.render iconBase this w0) as [[] w2]
      end; reflexivity. }
  split; [exact E|]. rewrite E. cbn [snd].
  match goal with
  | |- context [GroupBuilder.render iconBase this ?w0] =>
      destruct (render_frame iconBase this w0) as (Rs & Rc & _ & Re)
  end.
  rewrite Rs, Rc, Re. auto.
Qed.

Lemma handleRemove_absent_member_witness :
  let carol := NamedNode "https://carol.example/profile#me" in
  let this := {| GroupBuilder.groupGraph :=
                   NamedNode "https://example.org/profile/Group/1a2b3c4d.ttl";
                 GroupBuilder.groupNode :=
                   NamedNode "https://example.org/profile/Group/1a2b3c4d.ttl#this";
                 GroupBuilder.givenGroupChangedCb := true |} in
  let w := {| store :=
                {| statements :=
                     [st (GroupBuilder.groupNode this) (ns.vcard "hasMember")
                         carol
                         (NamedNode "https://example.org/profile/groups.ttl");
                      st carol (ns.foaf "name") (Literal "Carol")
                         (NamedNode "https://carol.example/profile")];
                   fetched := []; dropsDuplicates := true |};
              web := fun _ => None;
              element := []; calls := [] |} in
  let r := GroupBuilder.handleRemove "icons/" this carol w in
  ~ In (GroupBuilder.membership this carol) (statements (store w))
  /\ element (snd r)
     = [dropContainer
          [label "Group Name:" "Untitled Group";
           personDiv "icons/noun_15059.svg" "Carol" carol;
           button "Done"]]
  /\ showsError (element (snd r)) = false
  /\ store (snd r) = store w.
Proof.
  intros carol this w r.
  assert (Habsent : ~ In (GroupBuilder.membership this carol)
                      (statements (store w))).
  { simpl. intros [H|[H|[]]]; discriminate. }
  split; [exact Habsent|].
  destruct (handleRemove_absent_member "icons/" this carol w Habsent)
    as (_ & S & _ & E).
  split; [reflexivity|]. split; [exact E | exact S].
Defined.

(** ** setGroupName *)

Section Rename.

Variable this : GroupBuilder.t.
Variable name : string.

Local Abbreviation g := (GroupBuilder.groupNode this).
Local Abbreviation renamed := (replacement g name).
Local Abbreviation count := (count_occ statement_eq_dec).
Local Abbreviation other := (notNameOf g).

Lemma renamed_isNameOf y : isNameOf g (renamed y) = true.
Proof. unfold isNameOf, replacement. cbn [subject predicate].
       now rewrite !equals_refl. Qed.

Lemma removeStatement_Some (x : statement) : forall l,
  In x l ->
  exists l1,
    kb.removeStatement x l = Some l1
    /\ (forall v, count l v
                  = count l1 v + if statement_eq_dec x v then 1 else 0)
    /\ (forall q : statement -> bool,
          q x = false -> filter q l1 = filter q l)
    /\ (forall q : statement -> bool,
          q x = true ->
          List.length (filter q l) = S (List.length (filter q l1))).
Proof.
  induction l as [|y l IH]; intro Hin; [destruct Hin|].
  cbn [kb.removeStatement].
  destruct (statement_eqb x y) eqn:E.
  - apply statement_eqb_eq in E. subst y. exists l.
    split; [reflexivity|]. split; [|split].
    + intro v. cbn [count_occ].
      destruct (statement_eq_dec x v); lia.
    + intros q Hq. cbn [filter]. now rewrite Hq.
    + intros q Hq. cbn [filter]. now rewrite Hq.
  - apply statement_eqb_neq in E.
    destruct Hin as [->|Hin]; [now contradiction E|].
    destruct (IH Hin) as (l1 & R & C & F & G). rewrite R.
    exists (y :: l1). split; [reflexivity|]. split; [|split].
    + intro v. cbn [count_occ]. specialize (C v).
      destruct (statement_eq_dec y v); lia.
    + intros q Hq. cbn [filter]. now rewrite (F q Hq).
    + intros q Hq. cbn [filter]. specialize (G q Hq).
      destruct (q y); cbn [List.length]; lia.
Qed.

Lemma add_cases (f : formula) (y : statement) :
  (statements (kb.add f y) = statements f /\ In y (statements f))
  \/ statements (kb.add f y) = (statements f ++ [y])%list.
Proof.
  unfold kb.add. destruct (dropsDuplicates f && kb.holds f y) eqn:E.
  - left. apply andb_true_iff in E. split; [reflexivity|].
    now apply holds_In.
  - now right.
Qed.

Lemma add_count (f : formula) (y v : statement) :
  count (statements f) v <= count (statements (kb.add f y)) v
  /\ (y <> v ->
      count (statements (kb.add f y)) v = count (statements f) v).
Proof.
  destruct (add_cases f y) as [[-> _] | ->]; [auto|].
  rewrite count_occ_app. cbn [count_occ].
  destruct (statement_eq_dec y v); split; intros; try lia; contradiction.
Qed.

Lemma add_filter (f : formula) (y : statement) (q : statement -> bool) :
  (q y = false ->
   filter q (statements (kb.add f y)) = filter q (statements f))
  /\ List.length (filter q (statements (kb.add f y)))
     <= S (List.length (filter q (statements f))).
Proof.
  destruct (add_cases f y) as [[-> _] | ->]; [auto|].
  rewrite filter_app, length_app. cbn [filter].
  destruct (q y); cbn [List.length]; split; intros;
    try lia; try discriminate.
  now rewrite app_nil_r.
Qed.

(** The loop of [setGroupName], started with statements the store holds
    (each as often as it is listed): no [kb.remove] raises, and the
    statements are accounted for one by one. *)
Lemma rename_spec : forall found w,
  (forall v, count found v <= count (statements (store w)) v) ->
  (forall y, In y found -> isNameOf g y = true) ->
  let r := GroupBuilder.rename this name found w in
  let l := statements (store w) in
  let l' := statements (store (snd r)) in
  fst r = None
  /\ (forall v, isNameOf g v = true ->
                (forall y, In y found -> v <> renamed y) ->
                count l' v + count found v = count l v)
  /\ (forall v, count l v <= count l' v + count found v)
  /\ (forall y, In y found -> In (renamed y) l')
  /\ filter other l' = filter other l
  /\ List.length (filter (isNameOf g) l')
     <= List.length (filter (isNameOf g) l).
Proof.
  induction found as [|x later IH]; intros w P1 P2.
  - cbn [GroupBuilder.rename]. unfold ret. cbn [fst snd].
    split; [reflexivity|].
    split; [intros; cbn [count_occ]; lia|].
    split; [intro; cbn [count_occ]; lia|].
    split; [intros y []|]. split; [reflexivity | lia].
  - cbn [GroupBuilder.rename]. unfold bind, getStore, kb.remove.
    assert (Hin : In x (statements (store w))).
    { apply (count_occ_In statement_eq_dec). specialize (P1 x).
      cbn [count_occ] in P1.
      destruct (statement_eq_dec x x); [lia | contradiction]. }
    destruct (removeStatement_Some x _ Hin) as (l1 & R & C & F & G).
    rewrite R. cbn [option_map]. unfold putStore. cbv beta iota.
    set (f1 := with_statements (store w) l1).
    set (f2 := kb.add f1 (renamed x)).
    set (w2 := {| store := f2; web := web w; element := element w;
                  calls := calls w |}).
    change (st g (ns.vcard "fn") (Literal name) (why x))
      with (renamed x). fold f1 f2 w2.
    assert (A : forall v, count l1 v <= count (statements f2) v
                          /\ (renamed x <> v ->
                              count (statements f2) v = count l1 v))
      by (intro v; exact (add_count f1 (renamed x) v)).
    assert (P1' : forall v, count later v <= count (statements (store w2)) v).
    { intro v. specialize (P1 v). specialize (C v). specialize (A v).
      cbn [count_occ] in P1. cbn [store w2].
      destruct (statement_eq_dec x v); lia. }
    assert (P2' : forall y, In y later -> isNameOf g y = true)
      by (intros y Hy; apply P2; now right).
    destruct (IH w2 P1' P2') as (I0 & I1 & I3 & I2 & I4 & I5).
    cbn [store w2] in I1, I3, I2, I4, I5.
    cbv zeta. split; [exact I0|]. split; [|split; [|split; [|split]]].
    + intros v Hv Hn.
      assert (Hx : v <> renamed x) by (apply Hn; now left).
      assert (Hl : forall y, In y later -> v <> renamed y)
        by (intros y Hy; apply Hn; now right).
      specialize (I1 v Hv Hl). specialize (C v).
      destruct (A v) as [_ A2]. specialize (A2 (not_eq_sym Hx)).
      cbn [count_occ].
      destruct (statement_eq_dec x v); lia.
    + intro v. specialize (I3 v). specialize (C v). destruct (A v) as [A1 _].
      cbn [count_occ].
      destruct (statement_eq_dec x v); lia.
    + intros y [<-|Hy]; [|now apply I2].
      assert (Hone : 1 <= count (statements f2) (renamed x)).
      { apply (count_occ_In statement_eq_dec). apply add_In. }
      specialize (I3 (renamed x)).
      destruct (Nat.eq_dec (count later (renamed x)) 0) as [Z|NZ].
      * apply (count_occ_In statement_eq_dec). lia.
      * assert (Hl : In (renamed x) later)
          by (apply (count_occ_In statement_eq_dec); lia).
        exact (I2 (renamed x) Hl).
    + rewrite I4.
      assert (Ox : other x = false)
        by (unfold notNameOf; rewrite (P2 x) by (now left); reflexivity).
      assert (Or : other (renamed x) = false)
        by (unfold notNameOf; now rewrite renamed_isNameOf).
      unfold f2. rewrite (proj1 (add_filter f1 (renamed x) other) Or).
      exact (F other Ox).
    + pose proof (proj2 (add_filter f1 (renamed x) (isNameOf g))) as L2.
      rewrite (G (isNameOf g)) by (apply P2; now left).
      fold f2 in L2. change (statements f1) with l1 in L2. lia.
Qed.

End Rename.

Lemma count_filter (q : statement -> bool) (v : statement) :
  forall l,
    count_occ statement_eq_dec (filter q l) v
    <= count_occ statement_eq_dec l v
    /\ (q v = true ->
        count_occ statement_eq_dec (filter q l) v
        = count_occ statement_eq_dec l v).
Proof.
  induction l as [|a l [IH1 IH2]]; [cbn; auto|].
  cbn [filter]. destruct (q a) eqn:Q; cbn [count_occ];
    destruct (statement_eq_dec a v) as [->|N]; split; intros; try lia.
  - rewrite IH2 by assumption. reflexivity.
  - now apply IH2.
  - congruence.
  - now apply IH2.
Qed.

Lemma image_dec (h : statement -> statement) (v : statement) :
  forall l,
    (exists y, In y l /\ v = h y) \/ (forall y, In y l -> v <> h y).
Proof.
  induction l as [|a l [(y & Hy & E)|IH]].
  - right. intros y [].
  - left. exists y. split; [now right | exact E].
  - destruct (statement_eq_dec v (h a)) as [E|N].
    + left. exists a. split; [now left | exact E].
    + right. intros y [<-|Hy]; [exact N | now apply IH].
Qed.

Lemma match_names (f : formula) (node : term) :
  kb.match_ f (Some node) (Some (ns.vcard "fn")) None None
  = filter (isNameOf node) (statements f).
Proof.
  unfold kb.match_, kb.statementsMatching. apply filter_ext. intro x.
  unfold kb.matches, kb.fits, isNameOf. now rewrite !andb_true_r.
Qed.

Lemma add_flag (f : formula) (x : statement) :
  dropsDuplicates (kb.add f x) = dropsDuplicates f.
Proof. unfold kb.add. now destruct (dropsDuplicates f && kb.holds f x). Qed.

Lemma count_occ_eqb (x : statement) (l : list statement) :
  count_occ statement_eq_dec l x = List.length (filter (statement_eqb x) l).
Proof.
  induction l as [|y l IH]; [reflexivity|]. cbn [count_occ filter].
  destruct (statement_eq_dec y x) as [->|N].
  - rewrite statement_eqb_refl. cbn [List.length]. now rewrite IH.
  - assert (E : statement_eqb x y = false)
      by (apply statement_eqb_neq; congruence).
    now rewrite E.
Qed.

(** In a store that drops duplicates, [add] never makes a second copy. *)
Lemma add_count_once (f : formula) (y : statement) :
  dropsDuplicates f = true ->
  count_occ statement_eq_dec (statements (kb.add f y)) y
  <= Nat.max 1 (count_occ statement_eq_dec (statements f) y).
Proof.
  intro D. unfold kb.add. rewrite D. cbn [andb].
  destruct (kb.holds f y) eqn:H; [lia|].
  cbn [statements with_statements]. rewrite count_occ_app. cbn [count_occ].
  assert (Z : count_occ statement_eq_dec (statements f) y = 0).
  { apply count_occ_not_In. intro I. apply holds_In in I. congruence. }
  destruct (statement_eq_dec y y); [lia | contradiction].
Qed.

Section RenameOnce.

Variable this : GroupBuilder.t.
Variable name : string.

Local Abbreviation g := (GroupBuilder.groupNode this).
Local Abbreviation renamed := (replacement g name).
Local Abbreviation count := (count_occ statement_eq_dec).

(** The loop of [setGroupName] in a store that drops duplicates: a
    statement that has at most one copy beyond those still to be replaced
    ends up with at most one copy. *)
Lemma rename_once (v : statement) : forall found w,
  dropsDuplicates (store w) = true ->
  (forall u, count found u <= count (statements (store w)) u) ->
  count (statements (store w)) v <= count found v + 1 ->
  count (statements (store (snd (GroupBuilder.rename this name found w)))) v
  <= 1.
Proof.
  induction found as [|x later IH]; intros w D P1 B.
  - cbn [GroupBuilder.rename]. unfold ret. cbn [snd count_occ] in *. lia.
  - cbn [GroupBuilder.rename]. unfold bind, getStore, kb.remove.
    assert (Hin : In x (statements (store w))).
    { apply (count_occ_In statement_eq_dec). specialize (P1 x).
      cbn [count_occ] in P1.
      destruct (statement_eq_dec x x); [lia | contradiction]. }
    destruct (removeStatement_Some x _ Hin) as (l1 & R & C & _ & _).
    rewrite R. cbn [option_map]. unfold putStore. cbv beta iota.
    set (f1 := with_statements (store w) l1).
    set (f2 := kb.add f1 (renamed x)).
    set (w2 := {| store := f2; web := web w; element := element w;
                  calls := calls w |}).
    change (st g (ns.vcard "fn") (Literal name) (why x)) with (renamed x).
    fold f1 f2 w2.
    assert (D1 : dropsDuplicates f1 = true) by exact D.
    apply IH.
    + cbn [store w2]. unfold f2. now rewrite add_flag.
    + intro u. specialize (P1 u). specialize (C u).
      pose proof (proj1 (add_count f1 (renamed x) u)) as A.
      cbn [count_occ] in P1. cbn [store w2]. fold f2 in A.
      change (statements f1) with l1 in A.
      destruct (statement_eq_dec x u); lia.
    + cbn [store w2]. specialize (C v). cbn [count_occ] in B.
      destruct (statement_eq_dec (renamed x) v) as [E|N].
      * pose proof (add_count_once f1 (renamed x) D1) as O.
        fold f2 in O. change (statements f1) with l1 in O.
        rewrite E in O.
        destruct (statement_eq_dec x v); lia.
      * pose proof (proj2 (add_count f1 (renamed x) v) N) as A.
        fold f2 in A. change (statements f1) with l1 in A.
        destruct (statement_eq_dec x v); lia.
Qed.

End RenameOnce.

(** C4, as stated, fails: a group node with name statements in two graphs
    (which is how [createNewGroup] leaves every new group: one in the
    group's own graph, one in the group index) has two name statements
    after a rename as well. *)
Lemma setGroupName_two_names_coexist :
  ~ (forall (this : GroupBuilder.t) (name : string) (w : world),
        let r := GroupBuilder.setGroupName this name w in
        List.length
          (kb.match_ (store (snd r)) (Some (GroupBuilder.groupNode this))
             (Some (ns.vcard "fn")) None None) <= 1).
Proof.
  intro claim.
  pose (own := NamedNode "https://example.org/profile/Group/110ec58a.ttl").
  pose (index := NamedNode "https://example.org/profile/groups.ttl").
  pose (group :=
          NamedNode "https://example.org/profile/Group/110ec58a.ttl#this").
  specialize (claim {| GroupBuilder.groupGraph := own;
                       GroupBuilder.groupNode := group;
                       GroupBuilder.givenGroupChangedCb := false |}
                "Friends"
                {| store :=
                     {| statements :=
                          [st group (ns.rdf "type") (ns.vcard "Group") own;
                           st group (ns.vcard "fn") (Literal "Untitled Group") own;
                           st group (ns.rdf "type") (ns.vcard "Group") index;
                           st group (ns.vcard "fn") (Literal "Untitled Group")
                              index];
                        fetched := []; dropsDuplicates := true |};
                   web := fun _ => None; element := []; calls := [] |}).
  vm_compute in claim. lia.
Qed.

(** C4, amended: for every state of the store (a store that drops a
    statement it already holds when it is added) and every new name,
    [setGroupName] (raising no exception) removes every prior name ('fn')
    statement on the group node and puts in its place a statement with the
    new literal value and the removed statement's graph tag: afterwards
    every name statement of the node carries the new value and the graph
    tag of a prior one, and each graph that named the group before holds
    exactly one name statement of the node.  So no two name statements of
    the node coexist in one graph, while a node named in several graphs
    keeps one name statement in each; all other statements are as before. *)
Theorem setGroupName_replaces_names (this : GroupBuilder.t) (name : string)
  (w : world) :
  let g := GroupBuilder.groupNode this in
  let r := GroupBuilder.setGroupName this name w in
  let before := statements (store w) in
  let after := statements (store (snd r)) in
  dropsDuplicates (store w) = true ->
  fst r = None
  /\ (forall x, In x after /\ isNameOf g x = true ->
                object x = Literal name
                /\ exists y, In y before /\ isNameOf g y = true
                             /\ why y = why x)
  /\ (forall y, In y before /\ isNameOf g y = true ->
                In (st g (ns.vcard "fn") (Literal name) (why y)) after
                /\ List.length
                     (filter (fun z => isNameOf g z && equals (why y) (why z))
                        after) = 1)
  /\ filter (fun x => negb (isNameOf g x)) after
     = filter (fun x => negb (isNameOf g x)) before.
Proof.
  intros g r before after D.
  subst r after. unfold GroupBuilder.setGroupName, bind, getStore.
  rewrite match_names. fold g before.
  set (found := filter (isNameOf g) before).
  assert (P1 : forall v, count_occ statement_eq_dec found v
                         <= count_occ statement_eq_dec (statements (store w)) v)
    by (intro v; apply count_filter).
  assert (P2 : forall y, In y found -> isNameOf g y = true)
    by (intros y Hy; apply filter_In in Hy; tauto).
  destruct (rename_spec this name found w P1 P2)
    as (R0 & R1 & _ & R2 & R4 & _).
  fold g before in R1, R2, R4.
  assert (Once : forall v, isNameOf g v = true ->
                   count_occ statement_eq_dec
                     (statements
                        (store (snd (GroupBuilder.rename this name found w)))) v
                   <= 1).
  { intros v Hv. apply rename_once; [exact D | exact P1 |].
    pose proof (proj2 (count_filter (isNameOf g) v before) Hv) as Q.
    fold found in Q. fold before. lia. }
  set (after := statements (store (snd (GroupBuilder.rename this name found w))))
    in *.
  assert (New : forall x, In x after -> isNameOf g x = true ->
                  exists y, In y found
                            /\ x = st g (ns.vcard "fn") (Literal name) (why y)).
  { intros x Hx Hn.
    destruct (image_dec (fun y => st g (ns.vcard "fn") (Literal name) (why y))
                x found) as [(y & Hy & E)|None]; [now exists y|].
    exfalso. specialize (R1 x Hn None).
    pose proof (proj2 (count_filter (isNameOf g) x before) Hn) as Q.
    fold found in Q.
    apply (count_occ_In statement_eq_dec) in Hx. lia. }
  split; [exact R0|]. split; [|split].
  - intros x [Hx Hn]. destruct (New x Hx Hn) as (y & Hy & ->).
    cbn [object why]. split; [reflexivity|].
    exists y. apply filter_In in Hy. tauto.
  - intros y [Hy Hn].
    assert (Hin : In (st g (ns.vcard "fn") (Literal name) (why y)) after)
      by (apply R2; apply filter_In; tauto).
    split; [exact Hin|].
    set (n := st g (ns.vcard "fn") (Literal name) (why y)) in *.
    assert (Nn : isNameOf g n = true)
      by (unfold isNameOf, n; cbn [subject predicate];
          now rewrite !equals_refl).
    rewrite (filter_ext_in
               (fun z => isNameOf g z && equals (why y) (why z))
               (statement_eqb n)).
    + rewrite <- count_occ_eqb.
      pose proof (Once n Nn) as O.
      apply (count_occ_In statement_eq_dec) in Hin. lia.
    + intros z Hz. destruct (isNameOf g z) eqn:Zn; cbn [andb].
      * destruct (New z Hz Zn) as (y' & _ & ->).
        unfold statement_eqb, n. cbn [subject predicate object why].
        now rewrite !equals_refl.
      * symmetry. apply statement_eqb_neq. intros <-. congruence.
  - exact R4.
Qed.

Lemma setGroupName_replaces_names_witness :
  let own := NamedNode "https://example.org/profile/Group/110ec58a.ttl" in
  let index := NamedNode "https://example.org/profile/groups.ttl" in
  let group :=
    NamedNode "https://example.org/profile/Group/110ec58a.ttl#this" in
  let this := {| GroupBuilder.groupGraph := own;
                 GroupBuilder.groupNode := group;
                 GroupBuilder.givenGroupChangedCb := false |} in
  let w := {| store :=
                {| statements :=
                     [st group (ns.vcard "fn") (Literal "Untitled Group") own;
                      st group (ns.vcard "fn") (Literal "Untitled") own;
                      st group (ns.vcard "fn") (Literal "Untitled Group") index];
                   fetched := []; dropsDuplicates := true |};
              web := fun _ => None; element := []; calls := [] |} in
  let r := GroupBuilder.setGroupName this "Friends" w in
  dropsDuplicates (store w) = true
  /\ fst r = None
  /\ statements (store (snd r))
     = [st group (ns.vcard "fn") (Literal "Friends") own;
        st group (ns.vcard "fn") (Literal "Friends") index].
Proof.
  intros own index group this w r.
  assert (D : dropsDuplicates (store w) = true) by reflexivity.
  split; [exact D|].
  split; [exact (proj1 (setGroupName_replaces_names this "Friends" w D))|].
  reflexivity.
Defined.

(* ================================================================= *)
(** * Further properties of the pane *)

(** ** Failing fetches *)

Lemma fetch_failed (uri : string) (w : world) (e : error) :
  fst (fetch uri w) = Some e ->
  e = FetchError (docpart uri)
  /\ store (snd (fetch uri w)) = store w.
Proof.
  rewrite fetch_eq. cbv zeta.
  destruct (existsb _ _); [discriminate|].
  destruct (web w (docpart uri)); [discriminate|].
  cbn [fst snd store]. intro H. injection H as <-. auto.
Qed.

(** X1: when the type index cannot be fetched, [findGroupIndex] rejects
    with the very error the fetcher reported; it looks nothing up, leaves
    the store as the fetch left it and calls nothing besides that one
    fetch. *)
Theorem findGroupIndex_fetch_failure (typeIndexUrl : string) (w : world)
  (e : error) :
  let r := PeoplePicker.findGroupIndex typeIndexUrl w in
  fst (fetch typeIndexUrl w) = Some e ->
  fst r = Rejected e
  /\ store (snd r) = store (snd (fetch typeIndexUrl w))
  /\ calls (snd r) = (calls w ++ [nowOrWhenFetched typeIndexUrl])%list.
Proof.
  intros r Hfail. subst r.
  pose proof (fetch_frame typeIndexUrl w) as (Fc & _ & _).
  unfold PeoplePicker.findGroupIndex, bind.
  destruct (fetch typeIndexUrl w) as [err w1]. cbn [fst snd] in *.
  subst err. cbn [ret reject fst snd]. auto.
Qed.

Lemma findGroupIndex_fetch_failure_witness :
  let ab := NamedNode "https://bob.example/settings/publicTypeIndex.ttl#ab" in
  let other := NamedNode "https://bob.example/settings/publicTypeIndex.ttl" in
  let w := {| store :=
                {| statements :=
                     [st ab (ns.solid "forClass") (ns.vcard "AddressBook") other;
                      st ab (ns.solid "instance")
                         (NamedNode "https://bob.example/contacts/book.ttl")
                         other];
                   fetched := ["https://bob.example/settings/publicTypeIndex.ttl"];
                   dropsDuplicates := false |};
              web := fun _ => None; element := []; calls := [] |} in
  let url := "https://alice.example/settings/privateTypeIndex.ttl" in
  fst (fetch url w) = Some (FetchError url)
  /\ fst (PeoplePicker.findGroupIndex url w) = Rejected (FetchError url).
Proof.
  intros ab other w url.
  assert (H : fst (fetch url w) = Some (FetchError url)) by reflexivity.
  split; [exact H|].
  exact (proj1 (findGroupIndex_fetch_failure url w (FetchError url) H)).
Defined.

(** X2: when the group index cannot be fetched, [loadGroups] rejects with
    the very error the fetcher reported: it lists nothing, not even the
    groups the store already knows of, and leaves the store as the fetch
    left it. *)
Theorem loadGroups_fetch_failure (bookBaseUrl groupIndexUrl : string)
  (w : world) (e : error) :
  let r := GroupPicker.loadGroups bookBaseUrl groupIndexUrl w in
  fst (fetch groupIndexUrl w) = Some e ->
  fst r = Rejected e
  /\ store (snd r) = store (snd (fetch groupIndexUrl w))
  /\ calls (snd r) = (calls w ++ [nowOrWhenFetched groupIndexUrl])%list.
Proof.
  intros r Hfail. subst r.
  pose proof (fetch_frame groupIndexUrl w) as (Fc & _ & _).
  unfold GroupPicker.loadGroups, bind.
  destruct (fetch groupIndexUrl w) as [err w1]. cbn [fst snd] in *.
  subst err. cbn [ret reject fst snd]. auto.
Qed.

Lemma loadGroups_fetch_failure_witness :
  let book := NamedNode "https://example.org/profile/book.ttl#this" in
  let w := {| store :=
                {| statements :=
                     [st book (ns.vcard "includesGroup")
                         (NamedNode "https://example.org/profile/Group/1a2b3c4d.ttl#this")
                         (NamedNode "https://example.org/profile/book.ttl")];
                   fetched := ["https://example.org/profile/book.ttl"];
                   dropsDuplicates := false |};
              web := fun _ => None; element := []; calls := [] |} in
  let url := "https://example.org/profile/groups.ttl" in
  fst (fetch url w) = Some (FetchError url)
  /\ fst (GroupPicker.loadGroups "https://example.org/profile/" url w)
     = Rejected (FetchError url).
Proof.
  intros book w url.
  assert (H : fst (fetch url w) = Some (FetchError url)) by reflexivity.
  split; [exact H|].
  exact (proj1 (loadGroups_fetch_failure "https://example.org/profile/" url w
                  (FetchError url) H)).
Defined.

(** ** Registrations *)

(** X3: when an address book is registered but the registration has no
    'instance' statement, [findGroupIndex] rejects with 'incomplete address
    book registration'; as that [reject] is not followed by a [return], the
    callback then reads [instance[0].object] and an exception escapes it. *)
Theorem findGroupIndex_incomplete_registration
  (typeIndexUrl : string) (w : world)
  (registration : statement) (registrations : list statement) :
  let w1 := snd (fetch typeIndexUrl w) in
  let r := PeoplePicker.findGroupIndex typeIndexUrl w in
  fst (fetch typeIndexUrl w) = None ->
  kb.statementsMatching (store w1) None (Some (ns.solid "forClass"))
    (Some (ns.vcard "AddressBook")) None = registration :: registrations ->
  kb.statementsMatching (store w1) (Some (subject registration))
    (Some (ns.solid "instance")) None None = [] ->
  fst r = Rejected (Error "incomplete address book registration")
  /\ exists message,
       calls (snd r)
       = (calls w ++ [nowOrWhenFetched typeIndexUrl;
                      uncaught (TypeError message)])%list.
Proof.
  intros w1 r Hok Hreg Hinst. subst w1 r.
  pose proof (fetch_frame typeIndexUrl w) as (Fc & _ & _).
  unfold PeoplePicker.findGroupIndex, bind.
  destruct (fetch typeIndexUrl w) as [err w1]. cbn [fst snd] in *. subst err.
  unfold getStore. rewrite Hreg, Hinst. unfold emit, ret.
  cbn [List.length Nat.eqb fst snd reject calls].
  split; [reflexivity|]. eexists. rewrite Fc, <- app_assoc. reflexivity.
Qed.

Lemma findGroupIndex_incomplete_registration_witness :
  let url := "https://example.org/settings/privateTypeIndex.ttl" in
  let ab := NamedNode "https://example.org/settings/privateTypeIndex.ttl#ab" in
  let w := {| store := {| statements := []; fetched := [];
                          dropsDuplicates := false |};
              web := fun _ =>
                Some [(ab, ns.solid "forClass", ns.vcard "AddressBook")];
              element := []; calls := [] |} in
  fst (PeoplePicker.findGroupIndex url w)
  = Rejected (Error "incomplete address book registration").
Proof.
  intros url ab w.
  exact (proj1 (findGroupIndex_incomplete_registration url w
                  (st ab (ns.solid "forClass") (ns.vcard "AddressBook")
                      (NamedNode url)) [] eq_refl eq_refl eq_refl)).
Defined.

(** What [replace] removes is a suffix of the URL: nothing, or a suffix that
    begins with [book.ttl]. *)
Lemma replace_bookTtl_suffix (s : string) :
  exists rest,
    s = RegExp.replace PeoplePicker.bookTtl "" s ++ rest
    /\ (rest = "" \/ exists t, rest = "book.ttl" ++ t).
Proof.
  induction s as [|c s IH].
  - exists "". split; [reflexivity | now left].
  - cbn [RegExp.replace].
    destruct (RegExp.exec PeoplePicker.bookTtl (String c s) Some)
      as [r|] eqn:X.
    + rewrite exec_bookTtl in X.
      destruct (stripPrefix "book.ttl" (String c s)) as [rest|] eqn:E;
        [|discriminate].
      apply stripPrefix_Some in E.
      assert (R : r = "").
      { destruct rest as [|d f];
          [|destruct (Ascii.eqb d "#" && noLineTerminator f)];
          congruence. }
      subst r. exists (String c s). split; [reflexivity|].
      right. exists rest. exact E.
    + destruct IH as (rest & E1 & E2). exists rest. split; [|exact E2].
      cbn [append]. now rewrite <- E1.
Qed.

Lemma statementsMatching_head (f : formula) (s p o g : option term)
  (x : statement) (l : list statement) :
  kb.statementsMatching f s p o g = x :: l ->
  In x (statements f) /\ kb.matches s p o g x = true.
Proof.
  unfold kb.statementsMatching. intro E. apply filter_In.
  rewrite E. now left.
Qed.

(** X4: whenever [findGroupIndex] resolves, the group index is the base URL
    followed by 'groups.ttl' and the group container the base URL followed
    by 'Group/', and the base URL is the instance URL of a registered
    address book without a suffix that is empty or begins with 'book.ttl':
    an instance URL that does not end as the pattern wants is taken whole. *)
Theorem findGroupIndex_resolved (typeIndexUrl : string) (w : world)
  (found : PeoplePicker.groupIndex) :
  let known := statements (store (snd (fetch typeIndexUrl w))) in
  let base := PeoplePicker.bookBaseUrl found in
  fst (PeoplePicker.findGroupIndex typeIndexUrl w) = Resolved found ->
  PeoplePicker.groupIndexUrl found = base ++ "groups.ttl"
  /\ PeoplePicker.groupContainerUrl found = base ++ "Group/"
  /\ exists registration instance0 rest,
       In registration known
       /\ predicate registration = ns.solid "forClass"
       /\ object registration = ns.vcard "AddressBook"
       /\ In instance0 known
       /\ subject instance0 = subject registration
       /\ predicate instance0 = ns.solid "instance"
       /\ value (object instance0) = base ++ rest
       /\ (rest = "" \/ exists t, rest = "book.ttl" ++ t).
Proof.
  intros known base. subst known base.
  unfold PeoplePicker.findGroupIndex, bind.
  destruct (fetch typeIndexUrl w) as [[e|] w1]; [discriminate|].
  unfold getStore. cbn [snd].
  destruct (kb.statementsMatching (store w1) None (Some (ns.solid "forClass"))
              (Some (ns.vcard "AddressBook")) None)
    as [|registration regs] eqn:Hreg; [discriminate|].
  destruct (kb.statementsMatching (store w1) (Some (subject registration))
              (Some (ns.solid "instance")) None None)
    as [|instance0 insts] eqn:Hinst.
  - unfold emit, ret. cbn. discriminate.
  - cbn [List.length Nat.eqb ret fst resolve]. intro H. injection H as <-.
    cbn [PeoplePicker.bookBaseUrl PeoplePicker.groupIndexUrl
         PeoplePicker.groupContainerUrl].
    split; [reflexivity|]. split; [reflexivity|].
    apply statementsMatching_head in Hreg, Hinst.
    destruct Hreg as [Rin Rm]. destruct Hinst as [Iin Im].
    unfold kb.matches, kb.fits in Rm, Im.
    rewrite !andb_true_iff, ?equals_eq in Rm, Im.
    destruct (replace_bookTtl_suffix (value (object instance0)))
      as (rest & E & S).
    exists registration, instance0, rest.
    intuition congruence.
Qed.

Lemma findGroupIndex_resolved_witness :
  let url := "https://example.org/settings/privateTypeIndex.ttl" in
  let ab := NamedNode "https://example.org/settings/privateTypeIndex.ttl#ab" in
  let w := {| store := {| statements := []; fetched := [];
                          dropsDuplicates := false |};
              web := fun _ =>
                Some [(ab, ns.solid "forClass", ns.vcard "AddressBook");
                      (ab, ns.solid "instance",
                       NamedNode "https://example.org/contacts/index.ttl")];
              element := []; calls := [] |} in
  let found :=
    {| PeoplePicker.bookBaseUrl := "https://example.org/contacts/index.ttl";
       PeoplePicker.groupIndexUrl :=
         "https://example.org/contacts/index.ttlgroups.ttl";
       PeoplePicker.groupContainerUrl :=
         "https://example.org/contacts/index.ttlGroup/" |} in
  fst (PeoplePicker.findGroupIndex url w) = Resolved found
  /\ PeoplePicker.groupIndexUrl found
     = PeoplePicker.bookBaseUrl found ++ "groups.ttl".
Proof.
  intros url ab w found.
  assert (H : fst (PeoplePicker.findGroupIndex url w) = Resolved found)
    by reflexivity.
  split; [exact H|].
  exact (proj1 (findGroupIndex_resolved url w found H)).
Defined.

(** ** Creating a group: what the store and the promise end up as *)

Lemma add_monotone (f : formula) (x y : statement) :
  In y (statements f) -> In y (statements (kb.add f x)).
Proof.
  unfold kb.add. destruct (dropsDuplicates f && kb.holds f x); simpl; auto.
  intro H. apply in_or_app. now left.
Qed.

Lemma add_origin (f : formula) (x y : statement) :
  In y (statements (kb.add f x)) -> In y (statements f) \/ y = x.
Proof.
  unfold kb.add. destruct (dropsDuplicates f && kb.holds f x); simpl; auto.
  intro H. apply in_app_or in H. destruct H as [H|[H|[]]]; auto.
Qed.

Lemma addAll_monotone (l : list statement) : forall f y,
  In y (statements f) -> In y (statements (kb.addAll f l)).
Proof.
  unfold kb.addAll. induction l as [|x l IH]; intros f y H; simpl; auto.
  apply IH. now apply add_monotone.
Qed.

Lemma addAll_In (l : list statement) : forall f y,
  In y l -> In y (statements (kb.addAll f l)).
Proof.
  unfold kb.addAll. induction l as [|x l IH]; intros f y H; [destruct H|].
  simpl. destruct H as [<-|H]; [|now apply IH].
  apply (addAll_monotone l). apply add_In.
Qed.

Lemma addAll_origin (l : list statement) : forall f y,
  In y (statements (kb.addAll f l)) -> In y (statements f) \/ In y l.
Proof.
  unfold kb.addAll. induction l as [|x l IH]; intros f y H; simpl in *; auto.
  destruct (IH _ _ H) as [H1|H1]; [|auto].
  destruct (add_origin _ _ _ H1) as [H2|H2]; auto.
Qed.

Section Deliveries.

Variable patchFails : string -> bool.
Variables g0 g1 : term.
Variables ins0 ins1 : list statement.

Local Abbreviation jobs := [(g0, ins0); (g1, ins1)].

(** One response: the states stay coherent, the store only grows, and
    only by the statements of a PATCH that went through. *)
Lemma deliver_two (i : nat) (p0 p1 all : promise unit) (w : world) :
  patchState patchFails g0 p0 -> patchState patchFails g1 p1 ->
  allState p0 p1 all ->
  exists p0' p1' all' w',
    PeoplePicker.deliver patchFails jobs i ([p0; p1], all) w
    = (([p0'; p1'], all'), w')
    /\ patchState patchFails g0 p0' /\ patchState patchFails g1 p1'
    /\ allState p0' p1' all'
    /\ (i <> 0 -> p0' = p0) /\ (i <> 1 -> p1' = p1)
    /\ (i = 0 -> p0' <> Pending) /\ (i = 1 -> p1' <> Pending)
    /\ (p0 <> Pending -> p0' = p0) /\ (p1 <> Pending -> p1' = p1)
    /\ (forall x, In x (statements (store w)) -> In x (statements (store w')))
    /\ (p0' = Resolved tt -> p0 = Resolved tt
                             \/ incl ins0 (statements (store w')))
    /\ (p1' = Resolved tt -> p1 = Resolved tt
                             \/ incl ins1 (statements (store w')))
    /\ (forall x, In x (statements (store w')) ->
                  In x (statements (store w))
                  \/ (patchFails (value g0) = false /\ In x ins0)
                  \/ (patchFails (value g1) = false /\ In x ins1)).
Proof.
  intros G0 G1 A.
  assert (Same : exists p0' p1' all' w',
             (([p0; p1], all), w) = (([p0'; p1'], all'), w')
             /\ p0' = p0 /\ p1' = p1 /\ all' = all /\ w' = w)
    by (exists p0, p1, all, w; auto).
  unfold PeoplePicker.deliver.
  destruct i as [|[|i]]; cbn [nth_error].
  - destruct p0 as [|[]|e0].
    + destruct (patchFails (value g0)) eqn:F.
      * unfold ret. cbn [PeoplePicker.update].
        exists (Rejected (XhrError (value g0))), p1,
          (reject all (XhrError (value g0))), w.
        split; [reflexivity|].
        unfold patchState, allState in *.
        destruct all; cbn [reject];
          repeat split; intros; try congruence; try discriminate;
          intuition (try congruence; try discriminate).
      * unfold bind, getStore, putStore, ret.
        cbn [PeoplePicker.update forallb PeoplePicker.isResolved andb].
        eexists (Resolved tt), p1, _, _. split; [reflexivity|].
        cbn [store].
        unfold patchState, allState in *.
        destruct p1 as [|[]|e1]; destruct all as [|[]|e];
          cbn [PeoplePicker.isResolved andb resolve];
          repeat split; intros; try congruence; try discriminate;
          try (now apply addAll_monotone);
          try (right; intros y Hy; now apply addAll_In);
          try (match goal with
               | H : In _ (statements (kb.addAll _ _)) |- _ =>
                   apply addAll_origin in H; destruct H; auto
               end);
          intuition (try congruence; try discriminate).
    + destruct Same as (q0 & q1 & a & w' & E & -> & -> & -> & ->).
      exists (Resolved tt), p1, all, w. split; [reflexivity|].
      repeat split; intros; auto; try congruence; try discriminate.
    + destruct Same as (q0 & q1 & a & w' & E & -> & -> & -> & ->).
      exists (Rejected e0), p1, all, w. split; [reflexivity|].
      repeat split; intros; auto; try congruence; try discriminate.
  - destruct p1 as [|[]|e1].
    + destruct (patchFails (value g1)) eqn:F.
      * unfold ret. cbn [PeoplePicker.update].
        exists p0, (Rejected (XhrError (value g1))),
          (reject all (XhrError (value g1))), w.
        split; [reflexivity|].
        unfold patchState, allState in *.
        destruct all; cbn [reject];
          repeat split; intros; try congruence; try discriminate;
          intuition (try congruence; try discriminate).
      * unfold bind, getStore, putStore, ret.
        cbn [PeoplePicker.update forallb PeoplePicker.isResolved andb].
        eexists p0, (Resolved tt), _, _. split; [reflexivity|].
        cbn [store].
        unfold patchState, allState in *.
        destruct p0 as [|[]|e0]; destruct all as [|[]|e];
          cbn [PeoplePicker.isResolved andb resolve];
          repeat split; intros; try congruence; try discriminate;
          try (now apply addAll_monotone);
          try (right; intros y Hy; now apply addAll_In);
          try (match goal with
               | H : In _ (statements (kb.addAll _ _)) |- _ =>
                   apply addAll_origin in H; destruct H; auto
               end);
          intuition (try congruence; try discriminate).
    + exists p0, (Resolved tt), all, w. split; [reflexivity|].
      repeat split; intros; auto; try congruence; try discriminate.
    + exists p0, (Rejected e1), all, w. split; [reflexivity|].
      repeat split; intros; auto; try congruence; try discriminate.
  - replace (nth_error [] i) with (@None (term * list statement))
      by now destruct i.
    exists p0, p1, all, w. split; [reflexivity|].
    repeat split; intros; auto; try congruence; try discriminate.
Qed.

End Deliveries.

(** The same over a whole run of responses. *)
Lemma deliverAll_two (patchFails : string -> bool) (g0 g1 : term)
  (ins0 ins1 : list statement) (arrival : list nat) :
  forall (p0 p1 all : promise unit) (w : world),
  patchState patchFails g0 p0 -> patchState patchFails g1 p1 ->
  allState p0 p1 all ->
  exists p0' p1' all' w',
    PeoplePicker.deliverAll patchFails [(g0, ins0); (g1, ins1)] arrival
      ([p0; p1], all) w
    = (([p0'; p1'], all'), w')
    /\ patchState patchFails g0 p0' /\ patchState patchFails g1 p1'
    /\ allState p0' p1' all'
    /\ (~ In 0 arrival -> p0' = p0) /\ (~ In 1 arrival -> p1' = p1)
    /\ (In 0 arrival -> p0' <> Pending) /\ (In 1 arrival -> p1' <> Pending)
    /\ (p0 <> Pending -> p0' = p0) /\ (p1 <> Pending -> p1' = p1)
    /\ (forall x, In x (statements (store w)) -> In x (statements (store w')))
    /\ (p0' = Resolved tt -> p0 = Resolved tt
                             \/ incl ins0 (statements (store w')))
    /\ (p1' = Resolved tt -> p1 = Resolved tt
                             \/ incl ins1 (statements (store w')))
    /\ (forall x, In x (statements (store w')) ->
                  In x (statements (store w))
                  \/ (patchFails (value g0) = false /\ In x ins0)
                  \/ (patchFails (value g1) = false /\ In x ins1)).
Proof.
  induction arrival as [|i later IH]; intros p0 p1 all w G0 G1 A.
  - exists p0, p1, all, w. split; [reflexivity|].
    repeat split; auto; intros [].
  - rewrite deliverAll_cons.
    destruct (deliver_two patchFails g0 g1 ins0 ins1 i p0 p1 all w G0 G1 A)
      as (q0 & q1 & b & w1 & E & H0 & H1 & HA & K0 & K1 & D0 & D1 & S0 & S1
          & Gr & R0 & R1 & Or).
    rewrite E.
    destruct (IH q0 q1 b w1 H0 H1 HA)
      as (p0' & p1' & all' & w' & E' & H0' & H1' & HA' & K0' & K1' & D0' & D1'
          & S0' & S1' & Gr' & R0' & R1' & Or').
    exists p0', p1', all', w'. split; [exact E'|].
    split; [exact H0'|]. split; [exact H1'|]. split; [exact HA'|].
    cbn [In].
    split; [intro N; rewrite K0' by tauto; apply K0; intros ->; tauto|].
    split; [intro N; rewrite K1' by tauto; apply K1; intros ->; tauto|].
    split.
    { intros [->|I]; [|now apply D0'].
      rewrite S0' by now apply D0. now apply D0. }
    split.
    { intros [->|I]; [|now apply D1'].
      rewrite S1' by now apply D1. now apply D1. }
    split; [intro N; pose proof (S0 N) as Q; rewrite <- Q; apply S0';
            now rewrite Q|].
    split; [intro N; pose proof (S1 N) as Q; rewrite <- Q; apply S1';
            now rewrite Q|].
    split; [intros x Hx; now apply Gr', Gr|].
    split.
    { intro R. destruct (R0' R) as [Q|Q]; [|now right].
      destruct (R0 Q) as [P|P]; [now left|].
      right. intros y Hy. now apply Gr', P. }
    split.
    { intro R. destruct (R1' R) as [Q|Q]; [|now right].
      destruct (R1 Q) as [P|P]; [now left|].
      right. intros y Hy. now apply Gr', P. }
    intros x Hx. destruct (Or' x Hx) as [Q|Q]; [|now right].
    now apply Or.
Qed.

(** [createNewGroup] as a run of responses after the two requests. *)
Lemma createNewGroup_run
  (uuid_v4 : string) (patchFails : string -> bool) (arrival : list nat)
  (base : string) (w : world) :
  let graphUrl := base ++ "Group/" ++ slice0 8 uuid_v4 ++ ".ttl" in
  let indexUrl := base ++ "groups.ttl" in
  let groupNode := NamedNode (graphUrl ++ "#this") in
  let initial := fun namedGraph =>
    [st groupNode (ns.rdf "type") (ns.vcard "Group") namedGraph;
     st groupNode (ns.vcard "fn") (Literal "Untitled Group") namedGraph] in
  exists w0,
    store w0 = store w
    /\ PeoplePicker.createNewGroup uuid_v4 patchFails arrival base w
       = let run :=
           PeoplePicker.deliverAll patchFails
             [(NamedNode graphUrl, initial (NamedNode graphUrl));
              (NamedNode indexUrl, initial (NamedNode indexUrl))]
             arrival ([Pending; Pending], Pending) w0 in
         (match snd (fst run) with
          | Pending => Pending
          | Resolved _ =>
              Resolved {| PeoplePicker.groupNode := groupNode;
                          PeoplePicker.groupGraphNode := NamedNode graphUrl |}
          | Rejected err =>
              match PeoplePicker.responseURL err with
              | Some u =>
                  Rejected
                    (Error ("Couldn't create new group.  PATCH failed for ("
                              ++ u ++ ")"))
              | None =>
                  Rejected (TypeError
                              "Cannot read property 'responseURL' of undefined")
              end
          end, snd run).
Proof.
  intros graphUrl indexUrl groupNode initial.
  unfold PeoplePicker.createNewGroup.
  cbn [map PeoplePicker.forEach fst snd value].
  unfold bind, emit, ret. cbn [calls store web element].
  match goal with
  | |- context [PeoplePicker.deliverAll _ _ _ _ ?w0] => exists w0
  end.
  split; [reflexivity|].
  subst initial groupNode indexUrl graphUrl. cbv beta zeta.
  match goal with
  | |- context [PeoplePicker.deliverAll ?pf ?jobs ?arr ?st0 ?w0] =>
      destruct (PeoplePicker.deliverAll pf jobs arr st0 w0) as [[ps all] w1]
  end.
  reflexivity.
Qed.

Lemma append_inv_head (a : string) : forall b c, a ++ b = a ++ c -> b = c.
Proof.
  induction a as [|x a IH]; intros b c H; [exact H|].
  cbn [append] in H. injection H as H. now apply IH.
Qed.

Lemma allState_start : allState Pending Pending Pending.
Proof. repeat split; try discriminate. intros [H _]. discriminate. Qed.

Lemma patchState_settled (patchFails : string -> bool) (g : term)
  (pr : promise unit) :
  patchState patchFails g pr -> pr <> Pending ->
  (patchFails (value g) = false -> pr = Resolved tt)
  /\ (patchFails (value g) = true -> pr = Rejected (XhrError (value g))).
Proof.
  intros [H|[[H F]|[H F]]] N; [contradiction| |];
    split; intro F'; congruence.
Qed.

(** X5: when the server accepts both PATCH requests and both responses
    arrive, in whatever order, [createNewGroup] resolves to the group node
    and the node of its graph, and the store then holds the type and the
    name of the new group in the group's own graph and in the group
    index. *)
Theorem createNewGroup_success
  (uuid_v4 : string) (patchFails : string -> bool) (arrival : list nat)
  (base : string) (w : world) :
  let graphUrl := base ++ "Group/" ++ slice0 8 uuid_v4 ++ ".ttl" in
  let indexUrl := base ++ "groups.ttl" in
  let groupNode := NamedNode (graphUrl ++ "#this") in
  let initial := fun namedGraph =>
    [st groupNode (ns.rdf "type") (ns.vcard "Group") namedGraph;
     st groupNode (ns.vcard "fn") (Literal "Untitled Group") namedGraph] in
  let r := PeoplePicker.createNewGroup uuid_v4 patchFails arrival base w in
  patchFails graphUrl = false -> patchFails indexUrl = false ->
  In 0 arrival -> In 1 arrival ->
  fst r = Resolved {| PeoplePicker.groupNode := groupNode;
                      PeoplePicker.groupGraphNode := NamedNode graphUrl |}
  /\ incl (initial (NamedNode graphUrl) ++ initial (NamedNode indexUrl))%list
          (statements (store (snd r))).
Proof.
  intros graphUrl indexUrl groupNode initial r F0 F1 I0 I1. subst r.
  destruct (createNewGroup_run uuid_v4 patchFails arrival base w)
    as (w0 & Hs & E).
  fold graphUrl indexUrl groupNode initial in E. rewrite E. clear E.
  destruct (deliverAll_two patchFails (NamedNode graphUrl) (NamedNode indexUrl)
              (initial (NamedNode graphUrl)) (initial (NamedNode indexUrl))
              arrival Pending Pending Pending w0
              (or_introl eq_refl) (or_introl eq_refl) allState_start)
    as (p0 & p1 & all & w' & E & G0 & G1 & A & _ & _ & D0 & D1 & _ & _ & _
        & R0 & R1 & _).
  cbv zeta. unfold initial in E at 1 2. cbv beta in E. rewrite E.
  cbn [fst snd].
  destruct (patchState_settled _ _ _ G0 (D0 I0)) as [P0 _].
  destruct (patchState_settled _ _ _ G1 (D1 I1)) as [P1 _].
  specialize (P0 F0). specialize (P1 F1). subst p0 p1.
  split.
  - destruct all as [|[]|e]; [|reflexivity|].
    + destruct A as (_ & _ & A). exfalso. apply A. auto.
    + destruct A as [A|A]; discriminate.
  - apply incl_app.
    + destruct (R0 eq_refl) as [H|H]; [discriminate | exact H].
    + destruct (R1 eq_refl) as [H|H]; [discriminate | exact H].
Qed.

Lemma createNewGroup_success_witness :
  let w := {| store := {| statements := []; fetched := [];
                          dropsDuplicates := true |};
              web := fun _ => None; element := []; calls := [] |} in
  let r := PeoplePicker.createNewGroup "110ec58a-a0f2-4ac4-8393-c866d813b8d1"
             (fun _ => false) [1; 0] "https://example.org/profile/" w in
  (In 0 [1; 0] /\ In 1 [1; 0])
  /\ fst r
     = Resolved
         {| PeoplePicker.groupNode :=
              NamedNode "https://example.org/profile/Group/110ec58a.ttl#this";
            PeoplePicker.groupGraphNode :=
              NamedNode "https://example.org/profile/Group/110ec58a.ttl" |}.
Proof.
  intros w r.
  assert (I0 : In 0 [1; 0]) by (simpl; auto).
  assert (I1 : In 1 [1; 0]) by (simpl; auto).
  split; [split; assumption|].
  exact (proj1 (createNewGroup_success
                  "110ec58a-a0f2-4ac4-8393-c866d813b8d1" (fun _ => false)
                  [1; 0] "https://example.org/profile/" w
                  eq_refl eq_refl I0 I1)).
Defined.

(** X6: the two writes are not undone.  When the server refuses the PATCH
    of the group's own graph and accepts the PATCH of the group index, and
    both responses arrive (in whatever order), [createNewGroup] rejects
    naming the group's own resource, and yet the store then holds the type
    and the name of the group in the graph of the group index, while no
    statement was added to the group's own graph. *)
Theorem createNewGroup_partial_failure
  (uuid_v4 : string) (patchFails : string -> bool) (arrival : list nat)
  (base : string) (w : world) :
  let graphUrl := base ++ "Group/" ++ slice0 8 uuid_v4 ++ ".ttl" in
  let indexUrl := base ++ "groups.ttl" in
  let groupNode := NamedNode (graphUrl ++ "#this") in
  let initial := fun namedGraph =>
    [st groupNode (ns.rdf "type") (ns.vcard "Group") namedGraph;
     st groupNode (ns.vcard "fn") (Literal "Untitled Group") namedGraph] in
  let r := PeoplePicker.createNewGroup uuid_v4 patchFails arrival base w in
  patchFails graphUrl = true -> patchFails indexUrl = false ->
  In 0 arrival -> In 1 arrival ->
  fst r = Rejected (Error ("Couldn't create new group.  PATCH failed for ("
                             ++ graphUrl ++ ")"))
  /\ incl (initial (NamedNode indexUrl)) (statements (store (snd r)))
  /\ (forall x, In x (statements (store (snd r))) ->
                why x = NamedNode graphUrl ->
                In x (statements (store w))).
Proof.
  intros graphUrl indexUrl groupNode initial r F0 F1 I0 I1. subst r.
  destruct (createNewGroup_run uuid_v4 patchFails arrival base w)
    as (w0 & Hs & E).
  fold graphUrl indexUrl groupNode initial in E. rewrite E. clear E.
  destruct (deliverAll_two patchFails (NamedNode graphUrl) (NamedNode indexUrl)
              (initial (NamedNode graphUrl)) (initial (NamedNode indexUrl))
              arrival Pending Pending Pending w0
              (or_introl eq_refl) (or_introl eq_refl) allState_start)
    as (p0 & p1 & all & w' & E & G0 & G1 & A & _ & _ & D0 & D1 & _ & _ & _
        & R0 & R1 & Or).
  cbv zeta. unfold initial in E at 1 2. cbv beta in E. rewrite E.
  cbn [fst snd].
  destruct (patchState_settled _ _ _ G0 (D0 I0)) as [_ P0].
  destruct (patchState_settled _ _ _ G1 (D1 I1)) as [P1 _].
  specialize (P0 F0). specialize (P1 F1). subst p0 p1.
  cbn [value] in *.
  split; [|split].
  - destruct all as [|[]|e].
    + destruct A as (A & _). exfalso. now apply (A (XhrError graphUrl)).
    + destruct A as [A _]. discriminate.
    + destruct A as [A|A]; [|discriminate]. injection A as <-. reflexivity.
  - destruct (R1 eq_refl) as [H|H]; [discriminate | exact H].
  - intros x Hx Hw. rewrite <- Hs.
    destruct (Or x Hx) as [H|[[H _]|[_ H]]]; [exact H | congruence |].
    exfalso. cbn [In] in H.
    assert (W : why x = NamedNode indexUrl)
      by (destruct H as [<-|[<-|[]]]; reflexivity).
    rewrite Hw in W. injection W as W. unfold graphUrl, indexUrl in W.
    apply append_inv_head in W. discriminate.
Qed.

Lemma createNewGroup_partial_failure_witness :
  let patchFails := String.eqb "https://example.org/profile/Group/110ec58a.ttl" in
  let w := {| store := {| statements := []; fetched := [];
                          dropsDuplicates := true |};
              web := fun _ => None; element := []; calls := [] |} in
  let r := PeoplePicker.createNewGroup "110ec58a-a0f2-4ac4-8393-c866d813b8d1"
             patchFails [0; 1] "https://example.org/profile/" w in
  (In 0 [0; 1] /\ In 1 [0; 1])
  /\ incl [st (NamedNode "https://example.org/profile/Group/110ec58a.ttl#this")
              (ns.rdf "type") (ns.vcard "Group")
              (NamedNode "https://example.org/profile/groups.ttl");
           st (NamedNode "https://example.org/profile/Group/110ec58a.ttl#this")
              (ns.vcard "fn") (Literal "Untitled Group")
              (NamedNode "https://example.org/profile/groups.ttl")]
          (statements (store (snd r))).
Proof.
  intros patchFails w r.
  assert (I0 : In 0 [0; 1]) by (simpl; auto).
  assert (I1 : In 1 [0; 1]) by (simpl; auto).
  split; [split; assumption|].
  exact (proj1 (proj2 (createNewGroup_partial_failure
                         "110ec58a-a0f2-4ac4-8393-c866d813b8d1" patchFails
                         [0; 1] "https://example.org/profile/" w
                         eq_refl eq_refl I0 I1))).
Defined.



(** X8: the error names the refusal that arrives first.  When the server
    refuses the PATCH of the group index and that response arrives before
    the response to the PATCH of the group's own graph, [createNewGroup]
    rejects naming the group index, whatever becomes of the other PATCH. *)
Theorem createNewGroup_index_failure_first
  (uuid_v4 : string) (patchFails : string -> bool) (pre post : list nat)
  (base : string) (w : world) :
  let indexUrl := base ++ "groups.ttl" in
  patchFails indexUrl = true ->
  ~ In 0 pre -> ~ In 1 pre ->
  fst (PeoplePicker.createNewGroup uuid_v4 patchFails (pre ++ 1 :: post)
         base w)
  = Rejected (Error ("Couldn't create new group.  PATCH failed for ("
                       ++ indexUrl ++ ")")).
Proof.
  intros indexUrl F N0 N1.
  destruct (createNewGroup_run uuid_v4 patchFails (pre ++ 1 :: post) base w)
    as (w0 & Hs & E).
  fold indexUrl in E. rewrite E. clear E. cbv zeta.
  rewrite deliverAll_app.
  match goal with
  | |- context [PeoplePicker.deliverAll _ [(?g0, ?i0); (?g1, ?i1)] pre _ _] =>
      destruct (deliverAll_two patchFails g0 g1 i0 i1
                  pre Pending Pending Pending w0
                  (or_introl eq_refl) (or_introl eq_refl) allState_start)
        as (p0 & p1 & all & w' & E & _ & _ & A & K0 & K1 & _)
  end.
  rewrite E. rewrite (K0 N0), (K1 N1) in *.
  assert (all = Pending).
  { destruct all as [|[]|e]; [reflexivity| |]; exfalso.
    - destruct A as [A _]. discriminate.
    - destruct A as [A|A]; discriminate. }
  subst all. rewrite deliverAll_cons.
  unfold PeoplePicker.deliver at 1. cbn [nth_error value].
  fold indexUrl. rewrite F. unfold ret at 1. cbn [reject].
  match goal with
  | |- context [PeoplePicker.deliverAll ?pf ?jobs post (?ps, Rejected ?e) ?w1] =>
      pose proof (deliverAll_rejected pf jobs post ps e w1) as R;
      destruct (PeoplePicker.deliverAll pf jobs post (ps, Rejected e) w1)
        as [[ps' all'] w'']
  end.
  cbn [fst snd] in *. subst all'. reflexivity.
Qed.

Lemma createNewGroup_index_failure_first_witness :
  let w := {| store := {| statements := []; fetched := [];
                          dropsDuplicates := true |};
              web := fun _ => None; element := []; calls := [] |} in
  (~ In 0 [] /\ ~ In 1 [])
  /\ fst (PeoplePicker.createNewGroup "110ec58a-a0f2-4ac4-8393-c866d813b8d1"
            (fun _ => true) ([] ++ 1 :: [0]) "https://example.org/profile/" w)
     = Rejected (Error "Couldn't create new group.  PATCH failed for (https://example.org/profile/groups.ttl)").
Proof.
  intro w.
  assert (N0 : ~ In 0 []) by (intros []).
  assert (N1 : ~ In 1 []) by (intros []).
  split; [split; assumption|].
  exact (createNewGroup_index_failure_first
           "110ec58a-a0f2-4ac4-8393-c866d813b8d1" (fun _ => true) [] [0]
           "https://example.org/profile/" w eq_refl N0 N1).
Defined.

(** ** The group builder: adding, removing, renaming, and what is shown *)

Lemma render_eq (iconBase : string) (this : GroupBuilder.t) (w : world) :
  GroupBuilder.render iconBase this w
  = (tt,
     {| store := store w; web := web w;
        element :=
          [dropContainer
             (label (escape "Group Name:")
                (getWithDefault (store w) (GroupBuilder.groupNode this)
                   (ns.vcard "fn") "Untitled Group")
              :: match kb.any (store w) (Some (GroupBuilder.groupNode this))
                         (Some (ns.vcard "hasMember")) with
                 | Some _ =>
                     map (fun statement =>
                            Person.render iconBase (store w) (object statement))
                       (kb.match_ (store w) (Some (GroupBuilder.groupNode this))
                          (Some (ns.vcard "hasMember")) None None)
                 | None => [paragraph (escape GroupBuilder.copy)]
                 end ++ [button (escape "Done")])%list];
        calls := calls w |}).
Proof. reflexivity. Qed.

(** [render] gives a row to every member the store lists for the group,
    whatever graph lists it. *)
Lemma render_row (iconBase : string) (this : GroupBuilder.t) (w : world)
  (x : statement) :
  In x (statements (store w)) ->
  subject x = GroupBuilder.groupNode this ->
  predicate x = ns.vcard "hasMember" ->
  exists children,
    element (snd (GroupBuilder.render iconBase this w))
    = [dropContainer children]
    /\ In (Person.render iconBase (store w) (object x)) children.
Proof.
  intros Hin Hs Hp. rewrite render_eq. cbn [snd element].
  eexists. split; [reflexivity|].
  assert (Hx : In x (kb.match_ (store w) (Some (GroupBuilder.groupNode this))
                       (Some (ns.vcard "hasMember")) None None)).
  { apply filter_In. split; [exact Hin|].
    unfold kb.matches, kb.fits. rewrite <- Hs, <- Hp, !equals_refl.
    reflexivity. }
  right. apply in_or_app. left.
  unfold kb.any. fold (kb.match_ (store w)).
  destruct (kb.match_ (store w) (Some (GroupBuilder.groupNode this))
              (Some (ns.vcard "hasMember")) None None) as [|y l] eqn:E;
    [destruct Hx|].
  rewrite <- E.
  apply (in_map (fun statement =>
                   Person.render iconBase (store w) (object statement))).
  now rewrite E.
Qed.

(** What [add] does when the fetch has failed. *)
Lemma add_failed_eq (iconBase : string) (this : GroupBuilder.t)
  (webId : string) (w w1 : world) (e : error) :
  fetch webId w = (Some e, w1) ->
  GroupBuilder.add iconBase this webId w
  = (Rejected e,
     {| store := store w1; web := web w1; element := element w1;
        calls := (calls w1
                  ++ if GroupBuilder.givenGroupChangedCb this
                     then [groupChangedCb (Some e) None None]
                     else [])%list |}).
Proof.
  intro F. unfold GroupBuilder.add, bind. rewrite F.
  rewrite onGroupChanged_eq. reflexivity.
Qed.

(** X9: when the identifier cannot be fetched, [add] hands the error, and
    nothing else, to the changed-callback and rejects with it; no
    membership statement is added and the builder is not rendered again. *)
Theorem add_fetch_failure (iconBase : string) (this : GroupBuilder.t)
  (webId : string) (w : world) (e : error) :
  let r := GroupBuilder.add iconBase this webId w in
  fst (fetch webId w) = Some e ->
  fst r = Rejected e
  /\ store (snd r) = store w
  /\ element (snd r) = element w
  /\ calls (snd r)
     = (calls w ++ nowOrWhenFetched webId
                   :: if GroupBuilder.givenGroupChangedCb this
                      then [groupChangedCb (Some e) None None]
                      else [])%list.
Proof.
  intros r Hfail. subst r.
  destruct (fetch_failed webId w e Hfail) as [_ Hs].
  pose proof (fetch_frame webId w) as (Fc & Fe & _).
  destruct (fetch webId w) as [err w1] eqn:F. cbn [fst snd] in *. subst err.
  rewrite (add_failed_eq iconBase this webId w w1 e F).
  cbn [fst snd store element calls].
  rewrite Fc, <- app_assoc. auto.
Qed.

Lemma add_fetch_failure_witness :
  let this := {| GroupBuilder.groupGraph :=
                   NamedNode "https://example.org/profile/Group/1a2b3c4d.ttl";
                 GroupBuilder.groupNode :=
                   NamedNode "https://example.org/profile/Group/1a2b3c4d.ttl#this";
                 GroupBuilder.givenGroupChangedCb := true |} in
  let w := {| store := {| statements := []; fetched := [];
                          dropsDuplicates := false |};
              web := fun _ => None; element := []; calls := [] |} in
  let webId := "https://nobody.example/profile#me" in
  let e := FetchError "https://nobody.example/profile" in
  fst (fetch webId w) = Some e
  /\ calls (snd (GroupBuilder.add "icons/" this webId w))
     = [nowOrWhenFetched webId; groupChangedCb (Some e) None None].
Proof.
  intros this w webId e.
  assert (H : fst (fetch webId w) = Some e) by reflexivity.
  split; [exact H|].
  exact (proj2 (proj2 (proj2 (add_fetch_failure "icons/" this webId w e H)))).
Defined.

(** X10: [add] resolves, with the node of the identifier, exactly when
    the first type statement the store holds for it says Person; with any
    other first type, or none, it rejects with 'Only people supported right
    now', also when a later statement does give the type Person. *)
Theorem add_resolves_iff_first_type_person (iconBase : string)
  (this : GroupBuilder.t) (webId : string) (w : world) :
  let w1 := snd (fetch webId w) in
  let webIdNode := NamedNode webId in
  let types :=
    kb.statementsMatching (store w1) (Some webIdNode) (Some (ns.rdf "type"))
      None None in
  let r := GroupBuilder.add iconBase this webId w in
  fst (fetch webId w) = None ->
  (fst r = Resolved webIdNode
   \/ fst r = Rejected (Error "Only people supported right now"))
  /\ (fst r = Resolved webIdNode
      <-> exists x rest, types = x :: rest /\ object x = ns.foaf "Person").
Proof.
  intros w1 webIdNode types r Hok. subst r w1 types.
  destruct (fetch webId w) as [err w1] eqn:F. cbn [fst snd] in *. subst err.
  rewrite (add_fetched_eq iconBase this webId w w1 F). cbn [fst].
  fold webIdNode. unfold kb.any, GroupBuilder.notPerson.
  destruct (kb.statementsMatching (store w1) (Some webIdNode)
              (Some (ns.rdf "type")) None None) as [|x rest].
  - split; [now right|]. split; [discriminate|].
    intros (y & l & E & _). discriminate.
  - destruct (equals (object x) (ns.foaf "Person")) eqn:E; cbn [negb].
    + apply equals_eq in E. split; [now left|].
      split; [|reflexivity]. intros _. now exists x, rest.
    + split; [now right|]. split; [discriminate|].
      intros (y & l & E' & P). injection E' as <- <-.
      rewrite P, equals_refl in E. discriminate.
Qed.

Lemma add_resolves_iff_first_type_person_witness :
  let bob := NamedNode "https://bob.example/profile#me" in
  let this := {| GroupBuilder.groupGraph :=
                   NamedNode "https://example.org/profile/Group/1a2b3c4d.ttl";
                 GroupBuilder.groupNode :=
                   NamedNode "https://example.org/profile/Group/1a2b3c4d.ttl#this";
                 GroupBuilder.givenGroupChangedCb := false |} in
  let w := {| store := {| statements := []; fetched := [];
                          dropsDuplicates := false |};
              web := fun _ => Some [(bob, ns.rdf "type", ns.foaf "Agent");
                                    (bob, ns.rdf "type", ns.foaf "Person")];
              element := []; calls := [] |} in
  let r := GroupBuilder.add "icons/" this "https://bob.example/profile#me" w in
  fst (fetch "https://bob.example/profile#me" w) = None
  /\ fst r = Rejected (Error "Only people supported right now")
  /\ (fst r = Resolved bob \/
      fst r = Rejected (Error "Only people supported right now")).
Proof.
  intros bob this w r.
  assert (H : fst (fetch "https://bob.example/profile#me" w) = None)
    by reflexivity.
  split; [exact H|]. split; [reflexivity|].
  exact (proj1 (add_resolves_iff_first_type_person "icons/" this
                  "https://bob.example/profile#me" w H)).
Defined.

(** X11: after every [add] whose fetch succeeds, the container that is
    rendered has a row for the member that was dropped. *)
Theorem add_shows_member_row (iconBase : string) (this : GroupBuilder.t)
  (webId : string) (w : world) :
  let r := GroupBuilder.add iconBase this webId w in
  fst (fetch webId w) = None ->
  exists children,
    element (snd r) = [dropContainer children]
    /\ In (Person.render iconBase (store (snd r)) (NamedNode webId)) children.
Proof.
  intros r Hok. subst r.
  destruct (fetch webId w) as [err w1] eqn:F. cbn [fst] in Hok. subst err.
  rewrite (add_fetched_eq iconBase this webId w w1 F). cbn [snd].
  set (m := GroupBuilder.membership this (NamedNode webId)).
  match goal with
  | |- context [GroupBuilder.render iconBase this ?w0] => set (w2 := w0)
  end.
  assert (Hm : In m (statements (store w2))).
  { subst w2. cbn [store]. destruct (kb.holds (store w1) m) eqn:H.
    - now apply holds_In.
    - apply add_In. }
  destruct (render_frame iconBase this w2) as (Rs & _).
  rewrite Rs.
  exact (render_row iconBase this w2 m Hm eq_refl eq_refl).
Qed.

Lemma add_shows_member_row_witness :
  let bob := NamedNode "https://bob.example/profile#me" in
  let this := {| GroupBuilder.groupGraph :=
                   NamedNode "https://example.org/profile/Group/1a2b3c4d.ttl";
                 GroupBuilder.groupNode :=
                   NamedNode "https://example.org/profile/Group/1a2b3c4d.ttl#this";
                 GroupBuilder.givenGroupChangedCb := true |} in
  let w := {| store := {| statements := []; fetched := [];
                          dropsDuplicates := false |};
              web := fun _ => Some [(bob, ns.rdf "type", ns.foaf "Person");
                                    (bob, ns.foaf "name", Literal "Bob")];
              element := []; calls := [] |} in
  let r := GroupBuilder.add "icons/" this "https://bob.example/profile#me" w in
  fst (fetch "https://bob.example/profile#me" w) = None
  /\ element (snd r)
     = [dropContainer [label "Group Name:" "Untitled Group";
                       personDiv "icons/noun_15059.svg" "Bob" bob;
                       button "Done"]]
  /\ exists children,
       element (snd r) = [dropContainer children]
       /\ In (Person.render "icons/" (store (snd r)) bob) children.
Proof.
  intros bob this w r.
  assert (H : fst (fetch "https://bob.example/profile#me" w) = None)
    by reflexivity.
  split; [exact H|]. split; [reflexivity|].
  exact (add_shows_member_row "icons/" this
           "https://bob.example/profile#me" w H).
Defined.

Lemma handleRemove_present_eq (iconBase : string) (this : GroupBuilder.t)
  (webIdNode : term) (w : world) (l1 : list statement) :
  kb.removeStatement (GroupBuilder.membership this webIdNode)
    (statements (store w)) = Some l1 ->
  GroupBuilder.handleRemove iconBase this webIdNode w
  = (true,
     snd (GroupBuilder.render iconBase this
            {| store := with_statements (store w) l1;
               web := web w; element := element w;
               calls := (calls w
                         ++ if GroupBuilder.givenGroupChangedCb this
                            then [groupChangedCb None (Some "removed")
                                    (Some webIdNode)]
                            else [])%list |})).
Proof.
  intro R. unfold GroupBuilder.handleRemove, bind, getStore, kb.remove.
  rewrite R. cbn [option_map]. unfold putStore. cbv beta iota.
  rewrite onGroupChanged_eq. cbv beta iota. cbn [store web element calls].
  match goal with
  | |- context [GroupBuilder.render iconBase this ?w0] =>
      destruct (GroupBuilder.render iconBase this w0) as [[] w2]
  end.
  reflexivity.
Qed.

Lemma handleRemove_absent_eq (iconBase : string) (this : GroupBuilder.t)
  (webIdNode : term) (w : world) :
  ~ In (GroupBuilder.membership this webIdNode) (statements (store w)) ->
  exists message,
    GroupBuilder.handleRemove iconBase this webIdNode w
    = (true,
       snd (GroupBuilder.render iconBase this
              (snd (appendChild (errorMessageBlock message) w)))).
Proof.
  intro Habsent. apply removeStatement_None in Habsent.
  unfold GroupBuilder.handleRemove, bind, getStore, kb.remove.
  rewrite Habsent. cbn [option_map].
  destruct (kb.any (store w) (Some webIdNode) (Some (ns.foaf "name")))
    as [n|]; [destruct (Nat.ltb 0 (String.length (value n)))|];
    [exists (escape ("Could not remove " ++ value n))
    |exists (escape ("Could not remove " ++ value webIdNode))
    |exists (escape ("Could not remove " ++ value webIdNode))];
    rewrite !appendChild_eq; cbn [snd];
    match goal with
    | |- context [GroupBuilder.render iconBase this ?w0] =>
        destruct (GroupBuilder.render iconBase this w0) as [[] w2]
    end; reflexivity.
Qed.

(** X12: when the store holds the membership statement of the group's
    graph, the click handler of [handleRemove] takes out one such statement
    and nothing else, tells the changed-callback 'removed' with the member,
    and renders the builder without any error block. *)
Theorem handleRemove_member (iconBase : string) (this : GroupBuilder.t)
  (webIdNode : term) (w : world) :
  let m := GroupBuilder.membership this webIdNode in
  let r := GroupBuilder.handleRemove iconBase this webIdNode w in
  In m (statements (store w)) ->
  fst r = true
  /\ S (occurrences m (store (snd r))) = occurrences m (store w)
  /\ (forall q : statement -> bool,
        q m = false ->
        filter q (statements (store (snd r))) = filter q (statements (store w)))
  /\ calls (snd r)
     = (calls w ++ if GroupBuilder.givenGroupChangedCb this
                   then [groupChangedCb None (Some "removed") (Some webIdNode)]
                   else [])%list
  /\ showsError (element (snd r)) = false.
Proof.
  intros m r Hin. subst r.
  destruct (removeStatement_Some m _ Hin) as (l1 & R & _ & F & G).
  rewrite (handleRemove_present_eq iconBase this webIdNode w l1 R).
  cbn [fst snd].
  match goal with
  | |- context [GroupBuilder.render iconBase this ?w0] =>
      destruct (render_frame iconBase this w0) as (Rs & Rc & _ & Re)
  end.
  rewrite Rs, Rc, Re. cbn [store calls statements with_statements].
  split; [reflexivity|]. split; [|split; [|split]]; auto.
  unfold occurrences. cbn [statements with_statements].
  symmetry. apply G. apply statement_eqb_refl.
Qed.

Lemma handleRemove_member_witness :
  let carol := NamedNode "https://carol.example/profile#me" in
  let this := {| GroupBuilder.groupGraph :=
                   NamedNode "https://example.org/profile/Group/1a2b3c4d.ttl";
                 GroupBuilder.groupNode :=
                   NamedNode "https://example.org/profile/Group/1a2b3c4d.ttl#this";
                 GroupBuilder.givenGroupChangedCb := true |} in
  let w := {| store := {| statements := [GroupBuilder.membership this carol];
                          fetched := []; dropsDuplicates := true |};
              web := fun _ => None; element := []; calls := [] |} in
  let r := GroupBuilder.handleRemove "icons/" this carol w in
  In (GroupBuilder.membership this carol) (statements (store w))
  /\ statements (store (snd r)) = []
  /\ calls (snd r) = [groupChangedCb None (Some "removed") (Some carol)].
Proof.
  intros carol this w r.
  assert (H : In (GroupBuilder.membership this carol) (statements (store w)))
    by (simpl; auto).
  split; [exact H|]. split; [reflexivity|].
  exact (proj1 (proj2 (proj2 (proj2
           (handleRemove_member "icons/" this carol w H))))).
Defined.

Lemma removeStatement_last (x : statement) (l : list statement) :
  ~ In x l -> kb.removeStatement x (l ++ [x]) = Some l.
Proof.
  induction l as [|y l IH]; intro N; cbn [app kb.removeStatement].
  - now rewrite statement_eqb_refl.
  - assert (E : statement_eqb x y = false).
    { apply statement_eqb_neq. intros ->. apply N. now left. }
    rewrite E, IH; [reflexivity|]. intro H. apply N. now right.
Qed.

(** X13: adding a member that was not in the group and then removing it
    gives back the statements the store held when the member's document
    had been fetched: what [add] puts in is what [handleRemove] takes out. *)
Theorem add_then_remove (iconBase : string) (this : GroupBuilder.t)
  (webId : string) (w : world) :
  let w1 := snd (fetch webId w) in
  let m := GroupBuilder.membership this (NamedNode webId) in
  let r1 := GroupBuilder.add iconBase this webId w in
  let r2 := GroupBuilder.handleRemove iconBase this (NamedNode webId) (snd r1) in
  fst (fetch webId w) = None ->
  ~ In m (statements (store w1)) ->
  In m (statements (store (snd r1)))
  /\ statements (store (snd r2)) = statements (store w1).
Proof.
  intros w1 m r1 r2 Hok Hnew.
  pose proof (add_store_after iconBase this webId w Hok) as (S1 & _ & _).
  change (GroupBuilder.membership this (NamedNode webId)) with m in S1.
  fold w1 r1 in S1.
  assert (H : kb.holds (store w1) m = false).
  { destruct (kb.holds (store w1) m) eqn:H; [|reflexivity].
    apply holds_In in H. contradiction. }
  rewrite H in S1.
  destruct (occurrences_add_new m (store w1) H) as [A _].
  split; [rewrite S1; apply add_In|].
  subst r2.
  assert (R : kb.removeStatement m (statements (store (snd r1)))
              = Some (statements (store w1)))
    by (rewrite S1, A; now apply removeStatement_last).
  rewrite (handleRemove_present_eq iconBase this (NamedNode webId) (snd r1)
             _ R).
  cbn [snd].
  match goal with
  | |- context [GroupBuilder.render iconBase this ?w0] =>
      destruct (render_frame iconBase this w0) as (Rs & _)
  end.
  rewrite Rs. reflexivity.
Qed.

Lemma add_then_remove_witness :
  let bob := NamedNode "https://bob.example/profile#me" in
  let this := {| GroupBuilder.groupGraph :=
                   NamedNode "https://example.org/profile/Group/1a2b3c4d.ttl";
                 GroupBuilder.groupNode :=
                   NamedNode "https://example.org/profile/Group/1a2b3c4d.ttl#this";
                 GroupBuilder.givenGroupChangedCb := false |} in
  let w := {| store := {| statements := []; fetched := [];
                          dropsDuplicates := false |};
              web := fun _ => Some [(bob, ns.rdf "type", ns.foaf "Person")];
              element := []; calls := [] |} in
  let webId := "https://bob.example/profile#me" in
  let r1 := GroupBuilder.add "icons/" this webId w in
  let r2 := GroupBuilder.handleRemove "icons/" this bob (snd r1) in
  fst (fetch webId w) = None
  /\ statements (store (snd r2)) = statements (store (snd (fetch webId w))).
Proof.
  intros bob this w webId r1 r2.
  assert (Hok : fst (fetch webId w) = None) by reflexivity.
  assert (Hnew : ~ In (GroupBuilder.membership this (NamedNode webId))
                   (statements (store (snd (fetch webId w))))).
  { simpl. intros [H|[]]. discriminate. }
  split; [exact Hok|].
  exact (proj2 (add_then_remove "icons/" this webId w Hok Hnew)).
Defined.

(** X14: [render] lists the members any graph gives the group, while
    [handleRemove] only removes from the group's own graph: a member listed
    by another graph alone has a row, and clicking its remove control
    changes nothing in the store and leaves the row where it is. *)
Theorem member_of_other_graph_stays (iconBase : string)
  (this : GroupBuilder.t) (webIdNode : term) (w : world) (x : statement) :
  let r := GroupBuilder.handleRemove iconBase this webIdNode w in
  In x (statements (store w)) ->
  subject x = GroupBuilder.groupNode this ->
  predicate x = ns.vcard "hasMember" ->
  object x = webIdNode ->
  ~ In (GroupBuilder.membership this webIdNode) (statements (store w)) ->
  store (snd r) = store w
  /\ exists children,
       element (snd r) = [dropContainer children]
       /\ In (Person.render iconBase (store w) webIdNode) children.
Proof.
  intros r Hin Hs Hp Ho Habsent. subst r.
  destruct (handleRemove_absent_eq iconBase this webIdNode w Habsent)
    as (message & E).
  rewrite E. cbn [snd]. rewrite appendChild_eq. cbn [snd].
  match goal with
  | |- context [GroupBuilder.render iconBase this ?w0] => set (w2 := w0)
  end.
  destruct (render_frame iconBase this w2) as (Rs & _).
  split; [exact Rs|].
  rewrite <- Ho.
  exact (render_row iconBase this w2 x Hin Hs Hp).
Qed.

Lemma member_of_other_graph_stays_witness :
  let carol := NamedNode "https://carol.example/profile#me" in
  let this := {| GroupBuilder.groupGraph :=
                   NamedNode "https://example.org/profile/Group/1a2b3c4d.ttl";
                 GroupBuilder.groupNode :=
                   NamedNode "https://example.org/profile/Group/1a2b3c4d.ttl#this";
                 GroupBuilder.givenGroupChangedCb := true |} in
  let listed := st (GroupBuilder.groupNode this) (ns.vcard "hasMember") carol
                   (NamedNode "https://example.org/profile/groups.ttl") in
  let w := {| store := {| statements := [listed];
                          fetched := []; dropsDuplicates := true |};
              web := fun _ => None; element := []; calls := [] |} in
  let r := GroupBuilder.handleRemove "icons/" this carol w in
  (In listed (statements (store w))
   /\ ~ In (GroupBuilder.membership this carol) (statements (store w)))
  /\ store (snd r) = store w.
Proof.
  intros carol this listed w r.
  assert (Hin : In listed (statements (store w))) by (simpl; auto).
  assert (Habsent : ~ In (GroupBuilder.membership this carol)
                      (statements (store w))).
  { simpl. intros [H|[]]. discriminate. }
  split; [split; assumption|].
  exact (proj1 (member_of_other_graph_stays "icons/" this carol w listed
                  Hin eq_refl eq_refl eq_refl Habsent)).
Defined.

(** X15: [setGroupName] on a group node that has no name statement does
    nothing at all: the store is left as it is, so the name typed in is not
    recorded and the group shows its default name as before. *)
Theorem setGroupName_unnamed_group (this : GroupBuilder.t) (name : string)
  (w : world) (defaultValue : string) :
  let g := GroupBuilder.groupNode this in
  (forall x, In x (statements (store w)) -> isNameOf g x = false) ->
  GroupBuilder.setGroupName this name w = (None, w)
  /\ getWithDefault (store w) g (ns.vcard "fn") defaultValue = defaultValue.
Proof.
  intros g Hnone.
  assert (E : kb.match_ (store w) (Some g) (Some (ns.vcard "fn")) None None
              = []).
  { rewrite match_names. now apply filter_none. }
  split.
  - unfold GroupBuilder.setGroupName, bind, getStore. fold g. rewrite E.
    reflexivity.
  - unfold getWithDefault, kb.any. unfold kb.match_ in E. now rewrite E.
Qed.

Lemma setGroupName_unnamed_group_witness :
  let group := NamedNode "https://example.org/profile/Group/1a2b3c4d.ttl#this" in
  let this := {| GroupBuilder.groupGraph :=
                   NamedNode "https://example.org/profile/Group/1a2b3c4d.ttl";
                 GroupBuilder.groupNode := group;
                 GroupBuilder.givenGroupChangedCb := false |} in
  let w := {| store :=
                {| statements :=
                     [st group (ns.rdf "type") (ns.vcard "Group")
                         (GroupBuilder.groupGraph this)];
                   fetched := []; dropsDuplicates := true |};
              web := fun _ => None; element := []; calls := [] |} in
  GroupBuilder.setGroupName this "Friends" w = (None, w).
Proof.
  intros group this w.
  assert (H : forall x, In x (statements (store w)) ->
                        isNameOf (GroupBuilder.groupNode this) x = false).
  { simpl. intros x [<-|[]]. reflexivity. }
  exact (proj1 (setGroupName_unnamed_group this "Friends" w "Untitled Group" H)).
Defined.

(** After [setGroupName], a name statement of the group node is the
    replacement of one there was. *)
Lemma setGroupName_names_after (this : GroupBuilder.t) (name : string)
  (w : world) :
  let g := GroupBuilder.groupNode this in
  let r := GroupBuilder.setGroupName this name w in
  (forall x, In x (statements (store (snd r))) -> isNameOf g x = true ->
             object x = Literal name)
  /\ (forall y, In y (statements (store w)) -> isNameOf g y = true ->
                In (replacement g name y) (statements (store (snd r)))).
Proof.
  intros g r. subst r.
  unfold GroupBuilder.setGroupName, bind, getStore.
  rewrite match_names. fold g.
  set (found := filter (isNameOf g) (statements (store w))).
  assert (P1 : forall v, count_occ statement_eq_dec found v
                         <= count_occ statement_eq_dec (statements (store w)) v)
    by (intro v; apply count_filter).
  assert (P2 : forall y, In y found -> isNameOf g y = true)
    by (intros y Hy; apply filter_In in Hy; tauto).
  destruct (rename_spec this name found w P1 P2) as (_ & R1 & _ & R2 & _).
  fold g in R1, R2. split.
  - intros x Hx Hn.
    destruct (image_dec (replacement g name) x found) as [(y & Hy & E)|None].
    + now subst x.
    + exfalso. specialize (R1 x Hn None).
      pose proof (proj2 (count_filter (isNameOf g) x (statements (store w))) Hn)
        as Q.
      fold found in Q.
      apply (count_occ_In statement_eq_dec) in Hx. lia.
  - intros y Hy Hn. apply R2. apply filter_In. tauto.
Qed.

(** X16: when the group node has a name statement, then after
    [setGroupName] the name read for the node, which is what the summary of
    the group and the name field of the builder show, is the new name. *)
Theorem setGroupName_name_shown (this : GroupBuilder.t) (name : string)
  (w : world) (y : statement) (defaultValue : string) :
  let g := GroupBuilder.groupNode this in
  let r := GroupBuilder.setGroupName this name w in
  In y (statements (store w)) -> isNameOf g y = true ->
  getWithDefault (store (snd r)) g (ns.vcard "fn") defaultValue = name.
Proof.
  intros g r Hy Hn.
  destruct (setGroupName_names_after this name w) as [A B].
  fold g r in A, B. specialize (B y Hy Hn).
  unfold getWithDefault, kb.any.
  fold (kb.match_ (store (snd r))). rewrite match_names.
  destruct (filter (isNameOf g) (statements (store (snd r)))) as [|z l] eqn:E.
  - exfalso.
    assert (Hin : In (replacement g name y)
                    (filter (isNameOf g) (statements (store (snd r))))).
    { apply filter_In. split; [exact B|].
      unfold isNameOf, replacement. cbn [subject predicate].
      now rewrite !equals_refl. }
    rewrite E in Hin. destruct Hin.
  - assert (Hz : In z (filter (isNameOf g) (statements (store (snd r)))))
      by (rewrite E; now left).
    apply filter_In in Hz. destruct Hz as [Hz1 Hz2].
    now rewrite (A z Hz1 Hz2).
Qed.

Lemma setGroupName_name_shown_witness :
  let group := NamedNode "https://example.org/profile/Group/1a2b3c4d.ttl#this" in
  let this := {| GroupBuilder.groupGraph :=
                   NamedNode "https://example.org/profile/Group/1a2b3c4d.ttl";
                 GroupBuilder.groupNode := group;
                 GroupBuilder.givenGroupChangedCb := false |} in
  let named := st group (ns.vcard "fn") (Literal "Untitled Group")
                  (GroupBuilder.groupGraph this) in
  let w := {| store := {| statements := [named];
                          fetched := []; dropsDuplicates := true |};
              web := fun _ => None; element := []; calls := [] |} in
  (In named (statements (store w)) /\ isNameOf group named = true)
  /\ getWithDefault (store (snd (GroupBuilder.setGroupName this "Friends" w)))
       group (ns.vcard "fn") "Untitled Group" = "Friends".
Proof.
  intros group this named w.
  assert (Hy : In named (statements (store w))) by (simpl; auto).
  assert (Hn : isNameOf group named = true) by reflexivity.
  split; [split; assumption|].
  exact (setGroupName_name_shown this "Friends" w named "Untitled Group" Hy Hn).
Defined.

(** ** Dropping an identifier on the builder *)

(** X17: when the identifier that is dropped cannot be fetched, the error
    block 'Could not load the given WebId' is appended after whatever the
    mount element holds, which is not rendered again; the store is left as
    the fetch left it, no membership statement being added. *)
Theorem dropped_unfetchable (iconBase : string) (this : GroupBuilder.t)
  (uri : string) (w : world) (e : error) :
  let r := GroupBuilder.dropped iconBase this uri w in
  fst (fetch uri w) = Some e ->
  element (snd r)
  = (element w
     ++ [errorMessageBlock (escape "Could not load the given WebId")])%list
  /\ store (snd r) = store (snd (fetch uri w)).
Proof.
  intros r Hfail. subst r.
  pose proof (fetch_frame uri w) as (_ & Fe & _).
  destruct (fetch uri w) as [err w1] eqn:F. cbn [fst snd] in *. subst err.
  unfold GroupBuilder.dropped, bind.
  rewrite (add_failed_eq iconBase this uri w w1 e F).
  rewrite appendChild_eq. cbn [snd element store].
  now rewrite Fe.
Qed.

Lemma dropped_unfetchable_witness :
  let this := {| GroupBuilder.groupGraph :=
                   NamedNode "https://example.org/profile/Group/1a2b3c4d.ttl";
                 GroupBuilder.groupNode :=
                   NamedNode "https://example.org/profile/Group/1a2b3c4d.ttl#this";
                 GroupBuilder.givenGroupChangedCb := false |} in
  let w := {| store := {| statements := []; fetched := [];
                          dropsDuplicates := false |};
              web := fun _ => None;
              element := [dropContainer [button "Done"]]; calls := [] |} in
  let uri := "https://nobody.example/profile#me" in
  fst (fetch uri w) = Some (FetchError "https://nobody.example/profile")
  /\ element (snd (GroupBuilder.dropped "icons/" this uri w))
     = [dropContainer [button "Done"];
        errorMessageBlock "Could not load the given WebId"].
Proof.
  intros this w uri.
  assert (H : fst (fetch uri w)
              = Some (FetchError "https://nobody.example/profile"))
    by reflexivity.
  split; [exact H|].
  exact (proj1 (dropped_unfetchable "icons/" this uri w _ H)).
Defined.

(** X18: when the identifier that is dropped can be fetched, the builder
    is rendered with a row for it; and when the first type the store holds
    for it is not Person (or it has no type), the error block 'Could not
    load the given WebId' follows the container, although the identifier
    was loaded and its row is there.  For a person nothing follows. *)
Theorem dropped_fetched (iconBase : string) (this : GroupBuilder.t)
  (uri : string) (w : world) :
  let w1 := snd (fetch uri w) in
  let r := GroupBuilder.dropped iconBase this uri w in
  fst (fetch uri w) = None ->
  exists children,
    element (snd r)
    = (dropContainer children
       :: if GroupBuilder.notPerson
               (kb.any (store w1) (Some (NamedNode uri)) (Some (ns.rdf "type")))
          then [errorMessageBlock (escape "Could not load the given WebId")]
          else [])
    /\ In (Person.render iconBase (store (snd r)) (NamedNode uri)) children
    /\ In (GroupBuilder.membership this (NamedNode uri))
          (statements (store (snd r))).
Proof.
  intros w1 r Hok. subst r w1.
  destruct (fetch uri w) as [err w1] eqn:F. cbn [fst snd] in *. subst err.
  unfold GroupBuilder.dropped, bind.
  rewrite (add_fetched_eq iconBase this uri w w1 F).
  set (m := GroupBuilder.membership this (NamedNode uri)).
  match goal with
  | |- context [GroupBuilder.render iconBase this ?w0] => set (w2 := w0)
  end.
  assert (Hm : In m (statements (store w2))).
  { subst w2. cbn [store]. destruct (kb.holds (store w1) m) eqn:H.
    - now apply holds_In.
    - apply add_In. }
  destruct (render_frame iconBase this w2) as (Rs & _).
  destruct (render_row iconBase this w2 m Hm eq_refl eq_refl)
    as (children & El & Row).
  exists children.
  destruct (GroupBuilder.notPerson _).
  - rewrite appendChild_eq. cbn [snd element store]. rewrite El, Rs.
    repeat split; assumption.
  - unfold ret. cbn [snd]. rewrite El, Rs. repeat split; assumption.
Qed.

Lemma dropped_fetched_witness :
  let acme := NamedNode "https://acme.example/about#us" in
  let this := {| GroupBuilder.groupGraph :=
                   NamedNode "https://example.org/profile/Group/1a2b3c4d.ttl";
                 GroupBuilder.groupNode :=
                   NamedNode "https://example.org/profile/Group/1a2b3c4d.ttl#this";
                 GroupBuilder.givenGroupChangedCb := false |} in
  let w := {| store := {| statements := []; fetched := [];
                          dropsDuplicates := false |};
              web := fun _ =>
                Some [(acme, ns.rdf "type", ns.foaf "Organization");
                      (acme, ns.foaf "name", Literal "Acme")];
              element := []; calls := [] |} in
  let r := GroupBuilder.dropped "icons/" this "https://acme.example/about#us" w in
  fst (fetch "https://acme.example/about#us" w) = None
  /\ element (snd r)
     = [dropContainer [label "Group Name:" "Untitled Group";
                       personDiv "icons/noun_15059.svg" "Acme" acme;
                       button "Done"];
        errorMessageBlock "Could not load the given WebId"]
  /\ exists children,
       element (snd r)
       = (dropContainer children
          :: [errorMessageBlock (escape "Could not load the given WebId")])
       /\ In (Person.render "icons/" (store (snd r)) acme) children
       /\ In (GroupBuilder.membership this acme)
             (statements (store (snd r))).
Proof.
  intros acme this w r.
  assert (H : fst (fetch "https://acme.example/about#us" w) = None)
    by reflexivity.
  split; [exact H|]. split; [reflexivity|].
  exact (dropped_fetched "icons/" this "https://acme.example/about#us" w H).
Defined.
